(** * lora-peft-confusion-matrix.py: a shallow embedding

    The script fine-tunes a sequence classifier with a LoRA adapter, scores
    it on a test partition after every epoch, runs the eval partition once,
    builds a confusion matrix and writes a JSON run summary.

    The script is one linear sequence of statements over library calls.
    Each library call the claims depend on is modelled by a definition that
    carries the call's name; the neural network, the tokenizer's vocabulary,
    the random generator and the clock are parameters of the development. *)

From Stdlib Require Import String Ascii ZArith QArith Lia Permutation Bool Arith List.
From Stdlib Require Import DecimalString.
From Stdlib Require DecimalNat.
Import ListNotations.

Local Open Scope string_scope.
Local Open Scope list_scope.
Local Open Scope nat_scope.

(** ** sklearn.metrics.confusion_matrix (called with [labels=None]) *)

(** [numpy.unique]: the distinct values in ascending order. *)
Fixpoint insert_label (x : Z) (l : list Z) : list Z :=
  match l with
  | [] => [x]
  | y :: t =>
      if (x <? y)%Z then x :: l
      else if (x =? y)%Z then l
      else y :: insert_label x t
  end.

Definition unique_labels (y_true y_pred : list Z) : list Z :=
  fold_right insert_label [] (y_true ++ y_pred).

(** Strictly increasing lists. *)
Inductive ascending : list Z -> Prop :=
| asc_nil : ascending []
| asc_one x : ascending [x]
| asc_cons x y l : (x < y)%Z -> ascending (y :: l) -> ascending (x :: y :: l).

(** [label_to_ind = {y: x for x, y in enumerate(labels)}] and its lookup. *)
Fixpoint label_to_ind (labels : list Z) (y : Z) : option nat :=
  match labels with
  | [] => None
  | l :: t => if (l =? y)%Z then Some 0 else option_map S (label_to_ind t y)
  end.

(** [label_to_ind.get(x, n_labels + 1)] *)
Definition to_ind (labels : list Z) (y : Z) : nat :=
  match label_to_ind labels y with
  | Some i => i
  | None => length labels + 1
  end.

(** The dense array of [coo_matrix((ones, (rows, cols)), shape=(n, n))]:
    duplicates are summed, so cell (i, j) counts the samples at (i, j). *)
Definition count_cell (i j : nat) (cells : list (nat * nat)) : Z :=
  Z.of_nat (length (filter (fun c => (fst c =? i) && (snd c =? j)) cells)).

Definition coo_toarray (n : nat) (cells : list (nat * nat)) : list (list Z) :=
  map (fun i => map (fun j => count_cell i j cells) (seq 0 n)) (seq 0 n).

(** [confusion_matrix(y_true, y_pred)]: [None] is the ValueError of
    [check_consistent_length] on lists of different lengths.  When the
    labels are exactly 0..n-1 sklearn skips the index conversion, which is
    the identity there. *)
Definition confusion_matrix (y_true y_pred : list Z) : option (list (list Z)) :=
  if length y_true =? length y_pred then
    let labels := unique_labels y_true y_pred in
    let n_labels := length labels in
    let ti := map (to_ind labels) y_true in
    let pi := map (to_ind labels) y_pred in
    let keep := filter (fun c => (fst c <? n_labels) && (snd c <? n_labels))
                       (combine ti pi) in
    Some (coo_toarray n_labels keep)
  else None.

(** Reading a matrix: cell, row sum, sum of all cells, trace. *)
Definition cell (m : list (list Z)) (i j : nat) : Z := nth j (nth i m []) 0%Z.
Definition zsum (l : list Z) : Z := fold_right Z.add 0%Z l.
Definition row_sum (m : list (list Z)) (i : nat) : Z := zsum (nth i m []).
Definition total (m : list (list Z)) : Z := zsum (map zsum m).
Definition trace (m : list (list Z)) : Z :=
  zsum (map (fun i => cell m i i) (seq 0 (length m))).

(** Counting records by label, as the spec words it. *)
Definition count_records (t p : Z) (y_true y_pred : list Z) : Z :=
  Z.of_nat (length (filter (fun c => (fst c =? t)%Z && (snd c =? p)%Z)
                           (combine y_true y_pred))).
Definition count_true (t : Z) (y_true : list Z) : Z :=
  Z.of_nat (length (filter (fun y => (y =? t)%Z) y_true)).
Definition distinct_count (l : list Z) : nat := length (nodup Z.eq_dec l).

(** Cells in row [i], and cells on the diagonal. *)
Definition count_fst (i : nat) (cells : list (nat * nat)) : Z :=
  Z.of_nat (length (filter (fun c => fst c =? i) cells)).

Definition count_diag (cells : list (nat * nat)) : Z :=
  Z.of_nat (length (filter (fun c => fst c =? snd c) cells)).

(** ** evaluate.load("accuracy") *)

(** [accuracy_score(references, predictions)]: the fraction of positions
    where prediction and reference agree.  Python floats are rendered by
    rationals; on no samples sklearn returns nan, which the script never
    reaches because [compute] raises first. *)
Definition n_correct (references predictions : list Z) : nat :=
  length (filter (fun c => (fst c =? snd c)%Z) (combine references predictions)).

Definition accuracy_score (references predictions : list Z) : Q :=
  Z.of_nat (n_correct references predictions) # Pos.of_nat (length references).

(** ** Python values *)

(** Strings are sequences of code points below 256. *)
Definition string_of_nat (n : nat) : string := NilZero.string_of_uint (Nat.to_uint n).
Definition string_of_Z (z : Z) : string := NilZero.string_of_int (Z.to_int z).

Fixpoint join (sep : string) (l : list string) : string :=
  match l with
  | [] => EmptyString
  | [s] => s
  | s :: t => (s ++ sep ++ join sep t)%string
  end.

Fixpoint spaces (n : nat) : string :=
  match n with
  | 0 => EmptyString
  | S k => String " " (spaces k)
  end.

Definition quote : string := String (ascii_of_nat 34) EmptyString.
Definition backslash : string := String (ascii_of_nat 92) EmptyString.
Definition newline : string := String (ascii_of_nat 10) EmptyString.

(** A dict key is a str or an int; dicts keep insertion order. *)
Inductive Key :=
| KStr (s : string)
| KInt (z : Z).

#[warnings="-register-all"]
Inductive PyVal :=
| PStr (s : string)
| PInt (z : Z)
| PFloat (q : Q)
| PDict (items : list (Key * PyVal)).

Definition Dict := list (Key * PyVal).

Definition key_eqb (a b : Key) : bool :=
  match a, b with
  | KStr s, KStr t => String.eqb s t
  | KInt x, KInt y => (x =? y)%Z
  | _, _ => false
  end.

Fixpoint dict_get (k : Key) (d : Dict) : option PyVal :=
  match d with
  | [] => None
  | (k', v) :: t => if key_eqb k' k then Some v else dict_get k t
  end.

(** [d[k] = v]: an existing key keeps its position, a new one goes last. *)
Fixpoint dict_set (k : Key) (v : PyVal) (d : Dict) : Dict :=
  match d with
  | [] => [(k, v)]
  | (k', v') :: t => if key_eqb k' k then (k', v) :: t else (k', v') :: dict_set k v t
  end.

(** ** Tables of the datasets library *)

Inductive Value :=
| VText (s : string)
| VInt (z : Z)
| VInts (l : list Z).

(** A record of a partition: column name to value, in column order. *)
Definition Row := list (string * Value).

Record Dataset := {
  column_names : list string;
  rows : list Row
}.

Fixpoint get (k : string) (r : Row) : option Value :=
  match r with
  | [] => None
  | (k', v) :: t => if String.eqb k' k then Some v else get k t
  end.

Fixpoint set (k : string) (v : Value) (r : Row) : Row :=
  match r with
  | [] => [(k, v)]
  | (k', v') :: t => if String.eqb k' k then (k', v) :: t else (k', v') :: set k v t
  end.

Definition has_column (ds : Dataset) (c : string) : bool :=
  existsb (String.eqb c) (column_names ds).

Definition drop (cols : list string) (r : Row) : Row :=
  filter (fun kv => negb (existsb (String.eqb (fst kv)) cols)) r.

(** [row.update(outputs)] *)
Definition update (r outputs : Row) : Row :=
  fold_left (fun acc kv => set (fst kv) (snd kv) acc) outputs r.

Definition add_columns (names new : list string) : list string :=
  names ++ filter (fun c => negb (existsb (String.eqb c) names)) new.

(** ** The process: a trace of effects and an outcome *)

Inductive Exn :=
| OSError (resource : string)
| FileNotFoundError (path : string)
| ValueError (msg : string)
| KeyError (key : string)
| IndexError
| RuntimeError.

Inductive Msg :=
| Text (s : string)
| TrainableParameters
| ModelRepr
| BatchReport (predictions references : list Z)
| EpochReport (epoch : nat) (metric : Dict)
| ValidationReport (metric : Dict).

(** What a written file holds: the text of [to_csv], the figure of
    [savefig], the text of [json.dump]. *)
Inductive Content :=
| Csv (text : string)
| Png (title : string) (cm : list (list Z))
| Json (text : string).

(** What the process does to its surroundings, in order: a line on
    standard output, a pretrained resource fetched ([from_pretrained],
    [evaluate.load]), a parquet file read, a gradient update applied to the
    model, a file written, the figure window shown.  The progress bars of
    tqdm go to standard error and are left out. *)
Inductive Event :=
| Print (m : Msg)
| FromHub (resource : string)
| ReadFile (path : string)
| OptimizerStep (epoch : nat)
| WriteFile (path : string) (content : Content)
| ShowFigure.

(** How a piece of the script ends: it runs to its end with a value, it
    leaves through [sys.exit], or an exception goes uncaught. *)
Inductive Outcome (A : Type) :=
| Done (a : A)
| Exit (status : Z)
| Raise (e : Exn).
Arguments Done {A} a.
Arguments Exit {A} status.
Arguments Raise {A} e.

(** A piece of the script: the events it produced and how it ended.  An
    exit or an exception skips everything that follows. *)
Definition Script (A : Type) : Type := (list Event * Outcome A)%type.

Definition ret {A} (a : A) : Script A := ([], Done a).

Definition bind {A B} (m : Script A) (f : A -> Script B) : Script B :=
  match m with
  | (t, Done a) => let (t', o) := f a in (t ++ t', o)
  | (t, Exit s) => (t, Exit s)
  | (t, Raise e) => (t, Raise e)
  end.

Notation "x <- m ;; k" := (bind m (fun x => k))
  (at level 61, m at next level, right associativity).
Notation "m ;;; k" := (bind m (fun _ => k))
  (at level 61, right associativity).

Definition emit (e : Event) : Script unit := ([e], Done tt).
Definition print (m : Msg) : Script unit := emit (Print m).
Definition raise {A} (e : Exn) : Script A := ([], Raise e).

(** [sys.exit(arg)]: with no argument the exit status is zero. *)
Definition sys_exit {A} (arg : option Z) : Script A :=
  ([], Exit (match arg with None => 0%Z | Some n => n end)).

Definition lift {A} (e : Exn) (o : option A) : Script A :=
  match o with
  | Some a => ret a
  | None => raise e
  end.

(** The status the interpreter hands to the shell: an uncaught exception
    ends the process with status 1. *)
Definition exit_status {A} (o : Outcome A) : Z :=
  match o with
  | Done _ => 0%Z
  | Exit s => s
  | Raise _ => 1%Z
  end.

Fixpoint for_each {A S} (l : list A) (body : A -> S -> Script S) (s : S) : Script S :=
  match l with
  | [] => ret s
  | x :: t => s' <- body x s ;; for_each t body s'
  end.

Fixpoint map_script {A B} (f : A -> Script B) (l : list A) : Script (list B) :=
  match l with
  | [] => ret []
  | x :: t => y <- f x ;; ys <- map_script f t ;; ret (y :: ys)
  end.

Definition is_file_event (e : Event) : bool :=
  match e with
  | ReadFile _ | WriteFile _ _ | FromHub _ => true
  | _ => false
  end.

Definition is_summary_write (e : Event) : bool :=
  match e with
  | WriteFile _ (Json _) => true
  | _ => false
  end.

(** No event of a kind occurs while the script runs. *)
Definition never (kind : Event -> bool) {A} (m : Script A) : Prop :=
  Forall (fun e => kind e = false) (fst m).

Definition is_training (e : Event) : bool :=
  match e with
  | OptimizerStep _ => true
  | _ => false
  end.

(** ** The world the script runs in *)

Record DateTime := {
  year : nat; month : nat; day : nat;
  hour : nat; minute : nat; second : nat
}.

Record World := {
  hub : string -> bool;                 (* pretrained resources that can be loaded *)
  parquet : string -> option Dataset;   (* the parquet files present, by path *)
  writable : string -> bool;            (* paths that can be opened for writing *)
  clock_start : Q;                      (* time.time() at line 36 *)
  clock_end : Q;                        (* time.time() at line 224 *)
  now : DateTime                        (* datetime.now() at line 223 *)
}.

(** ** Configuration (lines 39-47)

    The learning rate, the device and the adapter's settings only reach
    the framework, which is a parameter below. *)

Record Config := {
  batch_size : nat;
  model_name_or_path : string;
  num_epochs : nat;
  padding_side : string;
  n_labels : nat;
  max_length : nat
}.

Definition config : Config := {|
  batch_size := 5;
  model_name_or_path := "roberta-large";
  num_epochs := 5;
  padding_side := "right";
  n_labels := 33;
  max_length := 512
|}.

(** RoBERTa's special tokens. *)
Definition bos_token_id : Z := 0.
Definition pad_token_id : Z := 1.
Definition eos_token_id : Z := 2.

(** ** strftime('%d-%m-%Y-%H-%M') *)

Definition two_digits (n : nat) : string :=
  if n <? 10 then ("0" ++ string_of_nat n)%string else string_of_nat n.

Definition strftime (d : DateTime) : string :=
  (two_digits (day d) ++ "-" ++ two_digits (month d) ++ "-" ++ string_of_nat (year d)
   ++ "-" ++ two_digits (hour d) ++ "-" ++ two_digits (minute d))%string.

(** ** torch.utils.data.DataLoader *)

(** BatchSampler with [drop_last=False]. *)
Fixpoint batch_sampler (bs : nat) (batch : list nat) (sampler : list nat) : list (list nat) :=
  match sampler with
  | [] => match batch with [] => [] | _ => [batch] end
  | idx :: rest =>
      let batch' := batch ++ [idx] in
      if length batch' =? bs then batch' :: batch_sampler bs [] rest
      else batch_sampler bs batch' rest
  end.

Record DataLoader := {
  dataset : list Row;
  shuffle : bool;
  loader_batch_size : nat
}.

(** ** Padding collator *)

Definition Batch := list Row.

Definition input_length (r : Row) : nat :=
  match get "input_ids" r with
  | Some (VInts l) => length l
  | _ => 0
  end.

Definition pad_to (n : nat) (fill : Z) (v : Value) : Value :=
  match v with
  | VInts l => VInts (l ++ repeat fill (n - length l))
  | _ => v
  end.

Definition pad_row (n : nat) (r : Row) : Row :=
  map (fun kv =>
         if String.eqb (fst kv) "input_ids" then (fst kv, pad_to n pad_token_id (snd kv))
         else if String.eqb (fst kv) "attention_mask" then (fst kv, pad_to n 0%Z (snd kv))
         else kv) r.

(** [tokenizer.pad(examples, padding="longest")] *)
Definition collate_fn (examples : list Row) : Batch :=
  let longest := fold_right Nat.max 0 (map input_length examples) in
  map (pad_row longest) examples.

(** [batch["labels"]] *)
Definition label_of (r : Row) : option Z :=
  match get "labels" r with
  | Some (VInt z) => Some z
  | _ => None
  end.

Fixpoint batch_labels (b : Batch) : option (list Z) :=
  match b with
  | [] => Some []
  | r :: t =>
      match label_of r, batch_labels t with
      | Some z, Some zs => Some (z :: zs)
      | _, _ => None
      end
  end.

(** ** argmax over the class scores *)

Fixpoint argmax_from (best : Q) (best_i i : nat) (l : list Q) : nat :=
  match l with
  | [] => best_i
  | x :: t => if Qle_bool x best then argmax_from best best_i (S i) t
              else argmax_from x i (S i) t
  end.

Definition argmax (scores : list Q) : Z :=
  match scores with
  | [] => 0%Z
  | x :: t => Z.of_nat (argmax_from x 0 1 t)
  end.

(** ** The accuracy accumulator *)

(** [None]: nothing was added since the module was loaded or last computed. *)
Definition Metric := option (list Z * list Z).

Definition add_batch (predictions references : list Z) (m : Metric) : Script Metric :=
  if length predictions =? length references then
    match m with
    | None => ret (Some (predictions, references))
    | Some (p, r) => ret (Some (p ++ predictions, r ++ references))
    end
  else raise (ValueError "Mismatch in the number of predictions and references").

(** [compute] consumes the accumulated pairs and clears the accumulator. *)
Definition compute (m : Metric) : Script (Dict * Metric) :=
  match m with
  | None => raise (ValueError "call add or add_batch at least once before compute")
  | Some (p, r) => ret ([(KStr "accuracy", PFloat (accuracy_score r p))], None)
  end.

(** ** pandas to_csv(index=False) of the matrix *)

Definition to_csv (cm : list (list Z)) : string :=
  (join "," (map string_of_nat (seq 0 (length cm))) ++ newline
   ++ String.concat EmptyString (map (fun row => join "," (map string_of_Z row) ++ newline) cm))%string.

(** ** json.dump *)

Definition hex_digit (n : nat) : ascii :=
  nth n ["0"; "1"; "2"; "3"; "4"; "5"; "6"; "7"; "8"; "9"; "a"; "b"; "c"; "d"; "e"; "f"]%char "0"%char.

(** The replacement [py_encode_basestring_ascii] makes for one character:
    everything outside space..~, the quote and the backslash are escaped. *)
Definition escape_char (c : ascii) : string :=
  let n := nat_of_ascii c in
  (if (n =? 34)%nat then backslash ++ quote
  else if (n =? 92)%nat then backslash ++ backslash
  else if (n =? 10)%nat then backslash ++ "n"
  else if (n =? 13)%nat then backslash ++ "r"
  else if (n =? 9)%nat then backslash ++ "t"
  else if (n =? 8)%nat then backslash ++ "b"
  else if (n =? 12)%nat then backslash ++ "f"
  else if ((32 <=? n)%nat && (n <=? 126)%nat)%bool then String c EmptyString
  else backslash ++ "u00" ++ String (hex_digit (n / 16)) (String (hex_digit (n mod 16)) EmptyString))%string.

Fixpoint escape (s : string) : string :=
  match s with
  | EmptyString => EmptyString
  | String c t => (escape_char c ++ escape t)%string
  end.

Definition encode_basestring_ascii (s : string) : string :=
  (quote ++ escape s ++ quote)%string.

(** The fields a tokenizer call returns, and whether a record holds no
    other field. *)
Definition tokenizer_fields : list string := ["input_ids"; "attention_mask"].

Definition only_tokenizer_fields (r : Row) : bool :=
  forallb (fun kv => existsb (String.eqb (fst kv)) tokenizer_fields) r.

(** ** A small instance to run the script on

    A byte-level vocabulary, a framework state that counts optimizer steps
    and generator draws, a sampler that rotates the indices by the number
    of draws, and a classifier that scores the class given by the first
    text token modulo 3. *)
Definition toy_bpe (s : string) : list Z :=
  map (fun c => Z.of_nat (nat_of_ascii c)) (list_ascii_of_string s).

Definition ToyTorch : Type := (nat * nat)%type.
Definition toy_assembled : ToyTorch := (0, 0).

Definition rotate (k n : nat) : list nat :=
  skipn (k mod Nat.max n 1) (seq 0 n) ++ firstn (k mod Nat.max n 1) (seq 0 n).

Definition toy_randperm (t : ToyTorch) (n : nat) : list nat * ToyTorch :=
  (rotate (S (snd t)) n, (fst t, S (snd t))).

Definition toy_train_step (t : ToyTorch) (b : Batch) : option ToyTorch :=
  Some (S (fst t), snd t).

Definition one_hot (n k : nat) : list Q :=
  map (fun i => if i =? k then 1%Q else 0%Q) (seq 0 n).

Definition toy_class (r : Row) : nat :=
  match get "input_ids" r with
  | Some (VInts (_ :: tok :: _)) => Z.to_nat tok mod 3
  | _ => 0
  end.

Definition toy_logits (t : ToyTorch) (b : Batch) : option (list (list Q)) :=
  Some (map (fun r => one_hot 33 (toy_class r)) b).

Definition toy_float_repr (q : Q) : string :=
  (string_of_Z (Qnum q) ++ "/" ++ string_of_Z (Z.pos (Qden q)))%string.

Definition toy_row (texto : string) (nota labels : Z) : Row :=
  [("texto", VText texto); ("nota", VInt nota); ("labels", VInt labels)].

Definition toy_table (rs : list Row) : Dataset :=
  {| column_names := ["texto"; "nota"; "labels"]; rows := rs |}.

Definition toy_rows_eval : list Row :=
  [toy_row "b" 400 2; toy_row "a" 200 2; toy_row "bb" 400 2].

Definition toy_parquet (path : string) : option Dataset :=
  if String.eqb path "preprocessing/train_conjunto_7_output.parquet" then
    Some (toy_table [toy_row "a" 200 1; toy_row "bc" 400 2; toy_row "c" 0 0])
  else if String.eqb path "preprocessing/test_conjunto_7_output.parquet" then
    Some (toy_table [toy_row "b" 400 2; toy_row "c" 200 1])
  else if String.eqb path "preprocessing/eval_conjunto_7_output.parquet" then
    Some (toy_table toy_rows_eval)
  else None.

Definition toy_world : World := {|
  hub := fun _ => true;
  parquet := toy_parquet;
  writable := fun _ => true;
  clock_start := 100;
  clock_end := 400;
  now := {| year := 2024; month := 3; day := 7; hour := 9; minute := 5; second := 42 |}
|}.

(** The same surroundings with the eval file taken away. *)
Definition toy_world_without_eval : World := {|
  hub := hub toy_world;
  parquet := fun path =>
    if String.eqb path "preprocessing/eval_conjunto_7_output.parquet" then None
    else toy_parquet path;
  writable := writable toy_world;
  clock_start := clock_start toy_world;
  clock_end := clock_end toy_world;
  now := now toy_world
|}.

Section Pipeline.

(** The parts of the run that live in the libraries' numerics:
    - [bpe]: the subword ids the tokenizer's vocabulary gives a text;
    - [Torch]: the framework state (weights, adapter, optimizer, schedule,
      random generator), [assembled] being the one lines 126-141 leave;
    - [randperm]: the permutation the RandomSampler draws from the generator;
    - [train_step]: lines 159-165 on one batch, [None] when they raise;
    - [logits]: the class scores of a batch under [no_grad], [None] when
      the forward pass raises;
    - [float_repr]: the text json writes for a float. *)
Variable bpe : string -> list Z.
Variable Torch : Type.
Variable assembled : Torch.
Variable randperm : Torch -> nat -> list nat * Torch.
Variable train_step : Torch -> Batch -> option Torch.
Variable logits : Torch -> Batch -> option (list (list Q)).
Variable float_repr : Q -> string.

Set Default Proof Using "Type".

(** A key as json writes it: int keys become their decimal text. *)
Definition encode_key (k : Key) : string :=
  match k with
  | KStr s => encode_basestring_ascii s
  | KInt z => encode_basestring_ascii (string_of_Z z)
  end.

(** [json.dumps(v, indent=indent)] at nesting level [level]. *)
Fixpoint encode (indent level : nat) (v : PyVal) : string :=
  match v with
  | PStr s => encode_basestring_ascii s
  | PInt z => string_of_Z z
  | PFloat q => float_repr q
  | PDict [] => "{}"
  | PDict items =>
      let newline_indent := (newline ++ spaces (indent * S level))%string in
      ("{" ++ newline_indent
       ++ join ("," ++ newline_indent)
            (map (fun kv => encode_key (fst kv) ++ ": " ++ encode indent (S level) (snd kv)) items)
       ++ newline ++ spaces (indent * level) ++ "}")%string
  end.

Definition json_dump (v : PyVal) (indent : nat) : string := encode indent 0 v.






(** ** Tokenization (lines 76-98) *)

(** [tokenizer(text, truncation=True, max_length=n)]: the ids beyond the
    room the two special tokens leave are cut off. *)
Definition tokenizer (n : nat) (text : string) : Row :=
  let ids := firstn (n - 2) (bpe text) in
  [("input_ids", VInts (bos_token_id :: ids ++ [eos_token_id]));
   ("attention_mask", VInts (repeat 1%Z (length ids + 2)))].

Definition tokenize (cfg : Config) (example : Row) : Script Row :=
  match get "texto" example with
  | Some (VText s) => ret (tokenizer (max_length cfg) s)
  | _ => raise (ValueError "text input must be of type str")
  end.

(** [dataset.map(tokenize, batched=True, remove_columns=cols)]: the named
    columns must exist; each record loses them and is updated with what
    [tokenize] returns.  A table without records only loses the columns. *)
Definition dataset_map (cfg : Config) (cols : list string) (ds : Dataset) : Script Dataset :=
  if forallb (has_column ds) cols then
    match rows ds with
    | [] => ret {| column_names := filter (fun c => negb (existsb (String.eqb c) cols)) (column_names ds);
                   rows := [] |}
    | _ =>
        rows' <- map_script (fun r => out <- tokenize cfg r ;; ret (update (drop cols r) out)) (rows ds) ;;
        ret {| column_names :=
                 add_columns (filter (fun c => negb (existsb (String.eqb c) cols)) (column_names ds))
                             ["input_ids"; "attention_mask"];
               rows := rows' |}
    end
  else raise (ValueError "Column to remove not in the dataset").

(** [load_dataset("parquet", data_files=path)] *)
Definition load_dataset (w : World) (path : string) : Script Dataset :=
  emit (ReadFile path) ;;;
  lift (FileNotFoundError path) (parquet w path).

Definition from_pretrained (w : World) (resource : string) : Script unit :=
  emit (FromHub resource) ;;;
  if hub w resource then ret tt else raise (OSError resource).

(** [dataset[column]] *)
Definition column (ds : Dataset) (c : string) : Script (list Row) :=
  if has_column ds c then ret (rows ds) else raise (KeyError c).

(** ** Iterating a DataLoader *)

(** The sampler: a fresh permutation from the generator when shuffling,
    the indices in order otherwise. *)
Definition sampler (dl : DataLoader) (t : Torch) : list nat * Torch :=
  if shuffle dl then randperm t (length (dataset dl))
  else (seq 0 (length (dataset dl)), t).

Definition index_batches (dl : DataLoader) (t : Torch) : list (list nat) * Torch :=
  let (order, t') := sampler dl t in
  (batch_sampler (loader_batch_size dl) [] order, t').

(** The fetcher: the records at the indices of one batch, collated. *)
Definition fetch (dl : DataLoader) (idxs : list nat) : Script Batch :=
  examples <- map_script (fun i => lift IndexError (nth_error (dataset dl) i)) idxs ;;
  ret (collate_fn examples).

(** ** The script, stage by stage *)

(** What lines 26-154 leave for the loops. *)
Record Prepared := {
  conjunto : string;
  obs : string;
  train_dataloader : DataLoader;
  test_dataloader : DataLoader;
  eval_dataloader : DataLoader;
  initial_results : Dict
}.

(** The globals the loops update. *)
Record LoopState := {
  torch : Torch;
  metric : Metric;
  results : Dict
}.

(** The globals at the end of the script. *)
Record Globals := {
  final_results : Dict;
  all_predictions : list Z;
  all_references : list Z;
  cm : list (list Z)
}.

Definition usage : string := "Uso: python meu_script.py <conjunto> <obs-opcional>".

Definition input_path (part conjunto : string) : string :=
  ("preprocessing/" ++ part ++ "_conjunto_" ++ conjunto ++ "_output.parquet")%string.

Definition make_loader (cfg : Config) (ds : Dataset) (shuffled : bool) : DataLoader :=
  {| dataset := rows ds; shuffle := shuffled; loader_batch_size := batch_size cfg |}.

(** Lines 26-154: arguments, data, tokenization, loaders, model, summary. *)
Definition prepare (cfg : Config) (w : World) (argv : list string) : Script Prepared :=
  if length argv <? 2 then
    print (Text usage) ;;;
    sys_exit None
  else
    let conjunto := nth 1 argv EmptyString in
    let obs := if 2 <? length argv then nth 2 argv EmptyString else EmptyString in
    from_pretrained w (model_name_or_path cfg) ;;;
    datasets <- load_dataset w (input_path "train" conjunto) ;;
    datasets_test <- load_dataset w (input_path "test" conjunto) ;;
    datasets_eval <- load_dataset w (input_path "eval" conjunto) ;;
    from_pretrained w "accuracy" ;;;
    tokenize_datasets <- dataset_map cfg ["texto"; "nota"] datasets ;;
    tokenize_datasets_test <- dataset_map cfg ["texto"; "nota"] datasets_test ;;
    tokenize_datasets_eval <- dataset_map cfg ["texto"; "nota"] datasets_eval ;;
    from_pretrained w (model_name_or_path cfg) ;;;
    print TrainableParameters ;;;
    print ModelRepr ;;;
    train_ids <- column tokenize_datasets "input_ids" ;;
    test_ids <- column tokenize_datasets_test "input_ids" ;;
    eval_ids <- column tokenize_datasets_eval "input_ids" ;;
    ret {| conjunto := conjunto;
           obs := obs;
           train_dataloader := make_loader cfg tokenize_datasets true;
           test_dataloader := make_loader cfg tokenize_datasets_test false;
           eval_dataloader := make_loader cfg tokenize_datasets_eval false;
           initial_results :=
             [(KStr "batch_size", PInt (Z.of_nat (batch_size cfg)));
              (KStr "model", PStr (model_name_or_path cfg));
              (KStr "epochs", PInt (Z.of_nat (num_epochs cfg)));
              (KStr "metrics", PDict []);
              (KStr "conjunto", PStr conjunto);
              (KStr "obs", PStr obs);
              (KStr "padding_side", PStr (padding_side cfg));
              (KStr "train_size", PInt (Z.of_nat (length train_ids)));
              (KStr "test_size", PInt (Z.of_nat (length test_ids)));
              (KStr "eval_size", PInt (Z.of_nat (length eval_ids)));
              (KStr "n_labels", PInt (Z.of_nat (n_labels cfg)))] |}.

(** Lines 158-165: one pass over the training loader. *)
Definition train_phase (epoch : nat) (dl : DataLoader) (t : Torch) : Script Torch :=
  let (batches, t0) := index_batches dl t in
  for_each batches
    (fun idxs t =>
       batch <- fetch dl idxs ;;
       t' <- lift RuntimeError (train_step t batch) ;;
       emit (OptimizerStep epoch) ;;;
       ret t')
    t0.

(** Lines 169-174 and 189-196: predictions and references of one batch. *)
Definition predict (t : Torch) (batch : Batch) : Script (list Z * list Z) :=
  scores <- lift RuntimeError (logits t batch) ;;
  let predictions := map argmax scores in
  references <- lift (KeyError "labels") (batch_labels batch) ;;
  print (BatchReport predictions references) ;;;
  ret (predictions, references).

(** Lines 168-178: one pass over the test loader. *)
Definition test_phase (dl : DataLoader) (t : Torch) (m : Metric) : Script (Torch * Metric) :=
  let (batches, t0) := index_batches dl t in
  m' <- for_each batches
          (fun idxs m =>
             batch <- fetch dl idxs ;;
             pr <- predict t0 batch ;;
             add_batch (fst pr) (snd pr) m)
          m ;;
  ret (t0, m').

(** [results["metrics"][epoch] = test_metric] *)
Definition set_metric (epoch : nat) (test_metric : Dict) (results : Dict) : Script Dict :=
  match dict_get (KStr "metrics") results with
  | Some (PDict metrics) =>
      ret (dict_set (KStr "metrics")
             (PDict (dict_set (KInt (Z.of_nat epoch)) (PDict test_metric) metrics)) results)
  | _ => raise (KeyError "metrics")
  end.

(** Lines 157-182: the body of the epoch loop. *)
Definition epoch_body (p : Prepared) (epoch : nat) (s : LoopState) : Script LoopState :=
  t1 <- train_phase epoch (train_dataloader p) (torch s) ;;
  tm <- test_phase (test_dataloader p) t1 (metric s) ;;
  computed <- compute (snd tm) ;;
  print (EpochReport epoch (fst computed)) ;;;
  results' <- set_metric epoch (fst computed) (results s) ;;
  ret {| torch := fst tm; metric := snd computed; results := results' |}.

(** Line 156: [for epoch in range(num_epochs)]. *)
Definition training_loop (cfg : Config) (p : Prepared) (s : LoopState) : Script LoopState :=
  for_each (seq 0 (num_epochs cfg)) (epoch_body p) s.

Definition initial_state (p : Prepared) : LoopState :=
  {| torch := assembled; metric := None; results := initial_results p |}.

(** Lines 185-204: the eval partition, once. *)
Definition final_evaluation (p : Prepared) (s : LoopState)
  : Script (Dict * list Z * list Z) :=
  let (batches, t0) := index_batches (eval_dataloader p) (torch s) in
  acc <- for_each batches
           (fun idxs (acc : Metric * list Z * list Z) =>
              batch <- fetch (eval_dataloader p) idxs ;;
              pr <- predict t0 batch ;;
              m' <- add_batch (fst pr) (snd pr) (fst (fst acc)) ;;
              ret (m', snd (fst acc) ++ fst pr, snd acc ++ snd pr))
           (metric s, [], []) ;;
  em <- compute (fst (fst acc)) ;;
  print (ValidationReport (fst em)) ;;;
  ret (dict_set (KStr "validation_metric") (PDict (fst em)) (results s),
       snd (fst acc), snd acc).

Definition write (w : World) (path : string) (content : Content) : Script unit :=
  if writable w path then emit (WriteFile path content)
  else raise (FileNotFoundError path).

Definition matrix_path (cfg : Config) (conjunto ext : string) : string :=
  ("results/confusion_matrix_" ++ conjunto ++ "_" ++ string_of_nat (num_epochs cfg)
   ++ "_epochs." ++ ext)%string.

Definition summary_path (cfg : Config) (today conjunto : string) : string :=
  ("results/" ++ today ++ "-conjunto" ++ conjunto ++ "-" ++ string_of_nat (num_epochs cfg)
   ++ "-epochs.json")%string.

(** Lines 207-237: matrix files, timestamp, summary file. *)
Definition report (cfg : Config) (w : World) (p : Prepared)
    (results : Dict) (all_predictions all_references : list Z) : Script Globals :=
  cm <- lift (ValueError "inconsistent numbers of samples")
          (confusion_matrix all_references all_predictions) ;;
  write w (matrix_path cfg (conjunto p) "csv") (Csv (to_csv cm)) ;;;
  write w (matrix_path cfg (conjunto p) "png") (Png "Confusion Matrix" cm) ;;;
  emit ShowFigure ;;;
  let today := strftime (now w) in
  let elapsed_time := (clock_end w - clock_start w)%Q in
  let results := dict_set (KStr "date") (PStr today) results in
  let results := dict_set (KStr "processing_time") (PFloat (elapsed_time / 60)) results in
  write w (summary_path cfg today (conjunto p)) (Json (json_dump (PDict results) 4)) ;;;
  print (Text "finish!!") ;;;
  ret {| final_results := results;
         all_predictions := all_predictions;
         all_references := all_references;
         cm := cm |}.

(** The whole script. *)
Definition main (cfg : Config) (w : World) (argv : list string) : Script Globals :=
  p <- prepare cfg w argv ;;
  s <- training_loop cfg p (initial_state p) ;;
  e <- final_evaluation p s ;;
  report cfg w p (fst (fst e)) (snd (fst e)) (snd e).

(** ** The shape of the metrics record *)

(** An entry: a mapping with one accuracy between 0 and 1. *)
Definition accuracy_entry (v : PyVal) : Prop :=
  exists a, v = PDict [(KStr "accuracy", PFloat a)] /\ (0 <= a <= 1)%Q.

Definition epoch_keys (n : nat) : list Key := map (fun e => KInt (Z.of_nat e)) (seq 0 n).

Definition metrics_record (n : nat) (results : Dict) : Prop :=
  exists metrics,
    dict_get (KStr "metrics") results = Some (PDict metrics)
    /\ map fst metrics = epoch_keys n
    /\ Forall (fun kv => accuracy_entry (snd kv)) metrics.

(** ** Kinds of events *)

Definition is_write (e : Event) : bool :=
  match e with
  | WriteFile _ _ => true
  | _ => false
  end.

Definition is_read (e : Event) : bool :=
  match e with
  | ReadFile _ => true
  | _ => false
  end.

(** The events that do not belong to a stage of the script: lines 26-154
    print, load from the hub and read files; the epoch loop prints and
    steps the optimizer; the eval pass prints; lines 207-237 write files,
    show the figure and print. *)
Definition outside_prepare (e : Event) : bool :=
  match e with
  | Print _ | FromHub _ | ReadFile _ => false
  | _ => true
  end.

Definition outside_training (e : Event) : bool :=
  match e with
  | Print _ | OptimizerStep _ => false
  | _ => true
  end.

Definition outside_evaluation (e : Event) : bool :=
  match e with
  | Print _ => false
  | _ => true
  end.

Definition outside_report (e : Event) : bool :=
  match e with
  | Print _ | WriteFile _ _ | ShowFigure => false
  | _ => true
  end.

(** The number of optimizer steps in a trace. *)
Definition optimizer_steps (tr : list Event) : nat := length (filter is_training tr).

(** Reading a decimal text back. *)
Definition nat_of_string (s : string) : option nat :=
  option_map Nat.of_uint (NilZero.uint_of_string s).

(** The record at position [i] of a partition carries the label [z]. *)
Definition labelled_at (ds : list Row) (i : nat) (z : Z) : Prop :=
  exists r, nth_error ds i = Some r /\ label_of r = Some z.

(** An epoch's entry: the accuracy of some predictions, one per record of
    the partition, against the partition's labels in file order. *)
Definition accuracy_over (ds : list Row) (v : PyVal) : Prop :=
  exists preds refs,
    map label_of ds = map Some refs
    /\ length preds = length refs
    /\ v = PDict [(KStr "accuracy", PFloat (accuracy_score refs preds))].

(** The script leaves through [sys.exit]. *)
Definition ends_by_exit {A} (m : Script A) : Prop := exists st, snd m = Exit st.

(** * Properties *)

(** ** Sums of integer lists *)

Lemma zsum_app (a b : list Z) : zsum (a ++ b) = (zsum a + zsum b)%Z.
Proof. unfold zsum. induction a as [|x a IH]; simpl; [reflexivity|]. rewrite IH. lia. Qed.

Lemma zsum_map_add {A} (f g : A -> Z) (l : list A) :
  zsum (map (fun x => (f x + g x)%Z) l) = (zsum (map f l) + zsum (map g l))%Z.
Proof. unfold zsum. induction l as [|x l IH]; simpl; [reflexivity|]. rewrite IH. lia. Qed.

Lemma zsum_map_ext {A} (f g : A -> Z) (l : list A) :
  (forall x, In x l -> f x = g x) -> zsum (map f l) = zsum (map g l).
Proof.
  intros H. f_equal. apply map_ext_in. exact H.
Qed.

Lemma zsum_map_zero {A} (l : list A) : zsum (map (fun _ => 0%Z) l) = 0%Z.
Proof. induction l as [|x l IH]; simpl; [reflexivity|]. unfold zsum in *. simpl. rewrite IH. reflexivity. Qed.

(** Case analysis on the boolean comparisons of a goal. *)
Ltac nat_cases :=
  repeat match goal with
    | |- context [?a =? ?b] => destruct (Nat.eqb_spec a b)
    | |- context [?a <=? ?b] => destruct (Nat.leb_spec a b)
    | |- context [?a <? ?b] => destruct (Nat.ltb_spec a b)
    end; cbn [andb]; try reflexivity; try lia.

(** A sum of indicators over a range picks the one index that matches. *)
Lemma zsum_indicator (k a n : nat) :
  zsum (map (fun j => if k =? j then 1%Z else 0%Z) (seq a n)) =
  if (a <=? k) && (k <? a + n) then 1%Z else 0%Z.
Proof.
  revert a. induction n as [|n IH]; intros a.
  - simpl. nat_cases.
  - cbn [seq map zsum fold_right]. fold (zsum (map (fun j => if k =? j then 1%Z else 0%Z) (seq (S a) n))).
    rewrite IH. nat_cases.
Qed.

(** ** unique_labels: ascending, duplicate-free, same elements *)

Lemma insert_label_In (x z : Z) (l : list Z) :
  In z (insert_label x l) <-> z = x \/ In z l.
Proof.
  induction l as [|y t IH]; simpl.
  - split; intros [H|H]; auto.
  - destruct (x <? y)%Z eqn:E1; simpl.
    { split; intros [H|H]; auto. }
    destruct (x =? y)%Z eqn:E2; simpl.
    + apply Z.eqb_eq in E2. subst. split; [intros H; right; exact H|].
      intros [H|H]; [left; symmetry; exact H|exact H].
    + rewrite IH. split.
      * intros [H|[H|H]]; auto.
      * intros [H|[H|H]]; auto.
Qed.

Lemma insert_label_ascending (x : Z) (l : list Z) :
  ascending l -> ascending (insert_label x l).
Proof.
  induction 1 as [|y|y z l Hyz Hl IH]; simpl.
  - constructor.
  - destruct (x <? y)%Z eqn:E1.
    + apply Z.ltb_lt in E1. constructor; [assumption|constructor].
    + destruct (x =? y)%Z eqn:E2; [constructor|].
      apply Z.ltb_ge in E1. apply Z.eqb_neq in E2.
      constructor; [lia|constructor].
  - destruct (x <? y)%Z eqn:E1.
    + apply Z.ltb_lt in E1. constructor; [assumption|]. constructor; assumption.
    + destruct (x =? y)%Z eqn:E2; [constructor; assumption|].
      apply Z.ltb_ge in E1. apply Z.eqb_neq in E2.
      simpl in IH. destruct (x <? z)%Z eqn:E3.
      * constructor; [lia|assumption].
      * destruct (x =? z)%Z eqn:E4.
        -- constructor; assumption.
        -- constructor; assumption.
Qed.

Lemma ascending_tail x l : ascending (x :: l) -> ascending l.
Proof. inversion 1; subst; [constructor|assumption]. Qed.

Lemma ascending_head_lt x l z : ascending (x :: l) -> In z l -> (x < z)%Z.
Proof.
  revert x. induction l as [|y l IH]; intros x H Hin; [destruct Hin|].
  inversion H; subst. destruct Hin as [->|Hin]; [assumption|].
  specialize (IH y H4 Hin). lia.
Qed.

Lemma ascending_NoDup l : ascending l -> NoDup l.
Proof.
  induction l as [|x l IH]; intros H; constructor.
  - intros Hin. pose proof (ascending_head_lt _ _ _ H Hin). lia.
  - apply IH. eapply ascending_tail; eassumption.
Qed.

(** Two ascending lists with the same elements are the same list. *)
Lemma ascending_unique (l1 l2 : list Z) :
  ascending l1 -> ascending l2 -> (forall z, In z l1 <-> In z l2) -> l1 = l2.
Proof.
  revert l2. induction l1 as [|x l1 IH]; intros l2 H1 H2 Heq.
  - destruct l2 as [|y l2]; [reflexivity|]. exfalso. apply (Heq y). left. reflexivity.
  - destruct l2 as [|y l2]; [exfalso; apply (Heq x); left; reflexivity|].
    assert (x = y) as ->.
    { destruct (proj1 (Heq x) (or_introl eq_refl)) as [E|Hx]; [congruence|].
      destruct (proj2 (Heq y) (or_introl eq_refl)) as [E|Hy]; [congruence|].
      pose proof (ascending_head_lt _ _ _ H1 Hy).
      pose proof (ascending_head_lt _ _ _ H2 Hx). lia. }
    f_equal. apply IH.
    + eapply ascending_tail; eassumption.
    + eapply ascending_tail; eassumption.
    + intros z. split; intros Hz.
      * destruct (proj1 (Heq z) (or_intror Hz)) as [E|Hin]; [|assumption].
        pose proof (ascending_head_lt _ _ _ H1 Hz). lia.
      * destruct (proj2 (Heq z) (or_intror Hz)) as [E|Hin]; [|assumption].
        pose proof (ascending_head_lt _ _ _ H2 Hz). lia.
Qed.

Lemma unique_labels_In (y_true y_pred : list Z) (z : Z) :
  In z (unique_labels y_true y_pred) <-> In z (y_true ++ y_pred).
Proof.
  unfold unique_labels. induction (y_true ++ y_pred) as [|x l IH]; simpl.
  - reflexivity.
  - rewrite insert_label_In, IH. split; intros [H|H]; auto.
Qed.

Lemma unique_labels_ascending (y_true y_pred : list Z) :
  ascending (unique_labels y_true y_pred).
Proof.
  unfold unique_labels. induction (y_true ++ y_pred) as [|x l IH]; simpl.
  - constructor.
  - apply insert_label_ascending. exact IH.
Qed.

Lemma unique_labels_NoDup (y_true y_pred : list Z) :
  NoDup (unique_labels y_true y_pred).
Proof. apply ascending_NoDup, unique_labels_ascending. Qed.

(** ** The label-to-index dictionary *)

Lemma label_to_ind_Some (labels : list Z) (y : Z) (i : nat) :
  label_to_ind labels y = Some i -> i < length labels /\ nth i labels 0%Z = y.
Proof.
  revert i. induction labels as [|l t IH]; intros i; simpl; [discriminate|].
  destruct (l =? y)%Z eqn:E.
  - intros [= <-]. apply Z.eqb_eq in E. split; [lia|assumption].
  - destruct (label_to_ind t y) as [k|]; simpl; [|discriminate].
    intros [= <-]. destruct (IH k eq_refl). split; [lia|assumption].
Qed.

Lemma label_to_ind_In (labels : list Z) (y : Z) :
  In y labels -> exists i, label_to_ind labels y = Some i.
Proof.
  induction labels as [|l t IH]; simpl; [intros []|].
  intros H. destruct (l =? y)%Z eqn:E; [eexists; reflexivity|].
  apply Z.eqb_neq in E. destruct H as [H|H]; [contradiction|].
  destruct (IH H) as [i ->]. eexists; reflexivity.
Qed.

Lemma to_ind_spec (labels : list Z) (y : Z) :
  In y labels -> to_ind labels y < length labels /\ nth (to_ind labels y) labels 0%Z = y.
Proof.
  intros H. unfold to_ind. destruct (label_to_ind_In _ _ H) as [i E]. rewrite E.
  apply label_to_ind_Some. exact E.
Qed.

Lemma NoDup_nth_eq (labels : list Z) (i j : nat) :
  NoDup labels -> i < length labels -> j < length labels ->
  nth i labels 0%Z = nth j labels 0%Z -> i = j.
Proof. intros H Hi Hj E. exact (proj1 (NoDup_nth labels 0%Z) H i j Hi Hj E). Qed.

(** On observed labels, comparing indices is comparing labels. *)
Lemma to_ind_eqb (labels : list Z) (y : Z) (i : nat) :
  NoDup labels -> In y labels -> i < length labels ->
  (to_ind labels y =? i) = (y =? nth i labels 0%Z)%Z.
Proof.
  intros Hnd Hin Hi. destruct (to_ind_spec _ _ Hin) as [Hlt Hnth].
  destruct (Nat.eqb_spec (to_ind labels y) i) as [E|E].
  - subst i. symmetry. apply Z.eqb_eq. symmetry. exact Hnth.
  - symmetry. apply Z.eqb_neq. intros Hy. apply E.
    apply (NoDup_nth_eq labels); try assumption. congruence.
Qed.

Lemma to_ind_inj_eqb (labels : list Z) (a b : Z) :
  NoDup labels -> In a labels -> In b labels ->
  (to_ind labels a =? to_ind labels b) = (a =? b)%Z.
Proof.
  intros Hnd Ha Hb. destruct (to_ind_spec _ _ Hb) as [Hlt Hnth].
  rewrite (to_ind_eqb labels a _ Hnd Ha Hlt), Hnth. reflexivity.
Qed.

(** ** Cells of the dense array *)

Lemma nth_map_seq {A} (f : nat -> A) (n i : nat) (d : A) :
  i < n -> nth i (map f (seq 0 n)) d = f i.
Proof.
  intros H. rewrite (nth_indep _ d (f 0)) by (rewrite length_map, length_seq; exact H).
  rewrite (map_nth f (seq 0 n) 0 i), seq_nth by exact H. reflexivity.
Qed.

Lemma coo_toarray_length (n : nat) cells : length (coo_toarray n cells) = n.
Proof. unfold coo_toarray. rewrite length_map, length_seq. reflexivity. Qed.

Lemma coo_toarray_row (n : nat) cells (i : nat) :
  i < n -> nth i (coo_toarray n cells) [] = map (fun j => count_cell i j cells) (seq 0 n).
Proof. intros H. unfold coo_toarray. rewrite nth_map_seq by exact H. reflexivity. Qed.

Lemma coo_toarray_cell (n : nat) cells (i j : nat) :
  i < n -> j < n -> cell (coo_toarray n cells) i j = count_cell i j cells.
Proof.
  intros Hi Hj. unfold cell. rewrite coo_toarray_row by exact Hi.
  rewrite nth_map_seq by exact Hj. reflexivity.
Qed.

Lemma count_cell_cons (i j : nat) (c : nat * nat) cells :
  count_cell i j (c :: cells) =
  Z.add (if (fst c =? i) && (snd c =? j) then 1%Z else 0%Z) (count_cell i j cells).
Proof.
  unfold count_cell. simpl. destruct ((fst c =? i) && (snd c =? j)); simpl length; lia.
Qed.

Lemma row_of_cells (n i : nat) cells :
  Forall (fun c => snd c < n) cells ->
  zsum (map (fun j => count_cell i j cells) (seq 0 n)) = count_fst i cells.
Proof.
  induction 1 as [|c cells Hc _ IH].
  - rewrite zsum_map_zero. reflexivity.
  - rewrite (zsum_map_ext _ _ _ (fun j _ => count_cell_cons i j c cells)).
    rewrite zsum_map_add, IH. unfold count_fst. simpl filter.
    destruct (fst c =? i); simpl andb.
    + rewrite zsum_indicator. simpl length. nat_cases.
    + rewrite zsum_map_zero. lia.
Qed.

Lemma total_of_cells (n : nat) cells :
  Forall (fun c => fst c < n) cells ->
  zsum (map (fun i => count_fst i cells) (seq 0 n)) = Z.of_nat (length cells).
Proof.
  induction 1 as [|c cells Hc _ IH].
  - rewrite zsum_map_zero. reflexivity.
  - rewrite (zsum_map_ext _ (fun i => Z.add (if fst c =? i then 1%Z else 0%Z) (count_fst i cells))).
    + rewrite zsum_map_add, IH, zsum_indicator. simpl length. nat_cases.
    + intros i _. unfold count_fst. simpl. destruct (fst c =? i); simpl length; lia.
Qed.

Lemma diag_of_cells (n : nat) cells :
  Forall (fun c => fst c < n) cells ->
  zsum (map (fun i => count_cell i i cells) (seq 0 n)) = count_diag cells.
Proof.
  induction 1 as [|c cells Hc _ IH].
  - rewrite zsum_map_zero. reflexivity.
  - rewrite (zsum_map_ext _ _ _ (fun i _ => count_cell_cons i i c cells)).
    rewrite zsum_map_add, IH. unfold count_diag. simpl filter.
    destruct (Nat.eqb_spec (fst c) (snd c)) as [E|E].
    + rewrite (zsum_map_ext _ (fun i => if fst c =? i then 1%Z else 0%Z)).
      * rewrite zsum_indicator. simpl length. nat_cases.
      * intros i _. rewrite <- E. destruct (fst c =? i); reflexivity.
    + rewrite (zsum_map_ext _ (fun _ => 0%Z)).
      * rewrite zsum_map_zero. lia.
      * intros i _. destruct (Nat.eqb_spec (fst c) i), (Nat.eqb_spec (snd c) i);
          simpl; try reflexivity. congruence.
Qed.

(** ** The confusion matrix in terms of labels *)

Section IndexedLabels.
Variable labels : list Z.
Hypothesis labels_NoDup : NoDup labels.

Let observed (l : list Z) := Forall (fun y => In y labels) l.
Let ind := to_ind labels.
Let n := length labels.

Lemma index_pairs_in_range (yt yp : list Z) :
  observed yt -> observed yp ->
  Forall (fun c => fst c < n /\ snd c < n) (combine (map ind yt) (map ind yp)).
Proof.
  intros Ht. revert yp. induction Ht as [|t yt Hin _ IH]; intros yp Hp; simpl; [constructor|].
  destruct Hp as [|p yp Hinp Hp]; simpl; constructor.
  - split; apply to_ind_spec; assumption.
  - apply IH. exact Hp.
Qed.

Lemma index_pairs_filter (yt yp : list Z) :
  observed yt -> observed yp ->
  filter (fun c => (fst c <? n) && (snd c <? n)) (combine (map ind yt) (map ind yp))
  = combine (map ind yt) (map ind yp).
Proof.
  intros Ht Hp. pose proof (index_pairs_in_range yt yp Ht Hp) as H.
  induction H as [|c l [H1 H2] _ IH]; simpl; [reflexivity|].
  apply Nat.ltb_lt in H1, H2. rewrite H1, H2. simpl. f_equal. exact IH.
Qed.

Lemma count_cell_labels (yt yp : list Z) (i j : nat) :
  observed yt -> observed yp -> i < n -> j < n ->
  count_cell i j (combine (map ind yt) (map ind yp))
  = count_records (nth i labels 0%Z) (nth j labels 0%Z) yt yp.
Proof using labels_NoDup.
  intros Ht. revert yp. induction Ht as [|t yt Hin _ IH]; intros yp Hp Hi Hj; [reflexivity|].
  destruct Hp as [|p yp Hinp Hp]; [reflexivity|].
  specialize (IH yp Hp Hi Hj). unfold count_cell, count_records in *. simpl.
  unfold ind at 1 2. rewrite (to_ind_eqb labels t i), (to_ind_eqb labels p j) by assumption.
  destruct ((t =? nth i labels 0)%Z && (p =? nth j labels 0)%Z); simpl length; lia.
Qed.

Lemma count_fst_labels (yt yp : list Z) (i : nat) :
  observed yt -> length yt = length yp -> i < n ->
  count_fst i (combine (map ind yt) (map ind yp)) = count_true (nth i labels 0%Z) yt.
Proof using labels_NoDup.
  intros Ht. revert yp. induction Ht as [|t yt Hin _ IH]; intros yp Hlen Hi; [reflexivity|].
  destruct yp as [|p yp]; [discriminate|]. injection Hlen as Hlen.
  specialize (IH yp Hlen Hi). unfold count_fst, count_true in *. simpl.
  unfold ind at 1. rewrite (to_ind_eqb labels t i) by assumption.
  destruct (t =? nth i labels 0)%Z; simpl length; lia.
Qed.

Lemma count_diag_labels (yt yp : list Z) :
  observed yt -> observed yp ->
  count_diag (combine (map ind yt) (map ind yp)) = Z.of_nat (n_correct yt yp).
Proof using labels_NoDup.
  intros Ht. revert yp. induction Ht as [|t yt Hin _ IH]; intros yp Hp; [reflexivity|].
  destruct Hp as [|p yp Hinp Hp]; [reflexivity|].
  specialize (IH yp Hp). unfold count_diag, n_correct in *. simpl.
  unfold ind at 1 2. rewrite (to_ind_inj_eqb labels t p) by assumption.
  destruct (t =? p)%Z; simpl length; lia.
Qed.
End IndexedLabels.

Lemma observed_true (yt yp : list Z) :
  Forall (fun y => In y (unique_labels yt yp)) yt.
Proof. apply Forall_forall. intros y H. apply unique_labels_In, in_or_app. left. exact H. Qed.

Lemma observed_pred (yt yp : list Z) :
  Forall (fun y => In y (unique_labels yt yp)) yp.
Proof. apply Forall_forall. intros y H. apply unique_labels_In, in_or_app. right. exact H. Qed.

(** With equally long inputs the call returns the array of index pairs. *)
Lemma confusion_matrix_cells (yt yp : list Z) :
  length yt = length yp ->
  confusion_matrix yt yp =
  Some (coo_toarray (length (unique_labels yt yp))
          (combine (map (to_ind (unique_labels yt yp)) yt)
                   (map (to_ind (unique_labels yt yp)) yp))).
Proof.
  intros Hlen. unfold confusion_matrix. rewrite Hlen, Nat.eqb_refl.
  rewrite index_pairs_filter; [reflexivity| |].
  - apply observed_true.
  - apply observed_pred.
Qed.

Lemma length_index_pairs (L yt yp : list Z) :
  length yt = length yp ->
  length (combine (map (to_ind L) yt) (map (to_ind L) yp)) = length yt.
Proof. intros H. rewrite length_combine, !length_map, H. apply Nat.min_id. Qed.

Lemma total_coo_toarray (n : nat) cells :
  Forall (fun c => fst c < n /\ snd c < n) cells ->
  total (coo_toarray n cells) = Z.of_nat (length cells).
Proof.
  intros H. unfold total, coo_toarray. rewrite map_map.
  rewrite (zsum_map_ext _ (fun i => count_fst i cells)).
  - apply total_of_cells. eapply Forall_impl; [|exact H]. intros c [? ?]; assumption.
  - intros i _. apply row_of_cells. eapply Forall_impl; [|exact H]. intros c [? ?]; assumption.
Qed.

Lemma trace_coo_toarray (n : nat) cells :
  Forall (fun c => fst c < n /\ snd c < n) cells ->
  trace (coo_toarray n cells) = count_diag cells.
Proof.
  intros H. unfold trace. rewrite coo_toarray_length.
  rewrite (zsum_map_ext _ (fun i => count_cell i i cells)).
  - apply diag_of_cells. eapply Forall_impl; [|exact H]. intros c [? ?]; assumption.
  - intros i Hi. apply in_seq in Hi. apply coo_toarray_cell; lia.
Qed.

(** ** Order of the samples *)

Lemma filter_Permutation {A} (f : A -> bool) (l l' : list A) :
  Permutation l l' -> Permutation (filter f l) (filter f l').
Proof.
  induction 1 as [|x l l' _ IH|x y l|l l' l'' _ IH1 _ IH2]; simpl.
  - constructor.
  - destruct (f x); [constructor|]; exact IH.
  - destruct (f x), (f y); try reflexivity. constructor.
  - etransitivity; eassumption.
Qed.

Lemma count_cell_Permutation (i j : nat) cells cells' :
  Permutation cells cells' -> count_cell i j cells = count_cell i j cells'.
Proof.
  intros H. unfold count_cell. f_equal. apply Permutation_length, filter_Permutation, H.
Qed.

Lemma coo_toarray_Permutation (n : nat) cells cells' :
  Permutation cells cells' -> coo_toarray n cells = coo_toarray n cells'.
Proof.
  intros H. unfold coo_toarray. apply map_ext. intros i. apply map_ext. intros j.
  apply count_cell_Permutation, H.
Qed.

Lemma unique_labels_same_elements (a b a' b' : list Z) :
  (forall z, In z (a ++ b) <-> In z (a' ++ b')) -> unique_labels a b = unique_labels a' b'.
Proof.
  intros H. apply ascending_unique; try apply unique_labels_ascending.
  intros z. rewrite !unique_labels_In. apply H.
Qed.

Lemma combine_map_fst_snd {A B C D} (f : A -> C) (g : B -> D) (rs : list (A * B)) :
  combine (map f (map fst rs)) (map g (map snd rs)) = map (fun r => (f (fst r), g (snd r))) rs.
Proof. induction rs as [|r rs IH]; simpl; [reflexivity|]. rewrite IH. reflexivity. Qed.

Lemma confusion_matrix_records (rs rs' : list (Z * Z)) :
  Permutation rs rs' ->
  confusion_matrix (map fst rs') (map snd rs') = confusion_matrix (map fst rs) (map snd rs).
Proof.
  intros H.
  rewrite !confusion_matrix_cells by (rewrite !length_map; reflexivity).
  assert (unique_labels (map fst rs') (map snd rs') = unique_labels (map fst rs) (map snd rs)) as ->.
  { apply unique_labels_same_elements. intros z. rewrite !in_app_iff.
    assert (forall A (f : Z * Z -> A) x, In x (map f rs') <-> In x (map f rs)) as E.
    { intros A f x. split; apply Permutation_in, Permutation_map;
        [symmetry|]; exact H. }
    rewrite !E. reflexivity. }
  f_equal. rewrite !combine_map_fst_snd. apply coo_toarray_Permutation.
  apply Permutation_map. symmetry. exact H.
Qed.

Lemma map_nth_seq {A} (l : list A) (d : A) :
  map (fun k => nth k l d) (seq 0 (length l)) = l.
Proof.
  induction l as [|x l IH]; simpl; [reflexivity|].
  f_equal. rewrite <- seq_shift, map_map. exact IH.
Qed.

Lemma combine_nth_map {A B} (la : list A) (lb : list B) (da : A) (db : B) (sigma : list nat) :
  length la = length lb ->
  combine (map (fun k => nth k la da) sigma) (map (fun k => nth k lb db) sigma)
  = map (fun k => nth k (combine la lb) (da, db)) sigma.
Proof.
  intros Hlen. induction sigma as [|k sigma IH]; simpl; [reflexivity|].
  rewrite IH, (combine_nth la lb k da db Hlen). reflexivity.
Qed.

(** ** Distinct labels *)

Lemma unique_labels_distinct_count (yt yp : list Z) :
  length (unique_labels yt yp) = distinct_count (yt ++ yp).
Proof.
  unfold distinct_count. apply Permutation_length, NoDup_Permutation.
  - apply unique_labels_NoDup.
  - apply NoDup_nodup.
  - intros z. rewrite unique_labels_In, nodup_In. reflexivity.
Qed.

Lemma fewer_labels_than_classes (L : list Z) (n : nat) (c : Z) :
  NoDup L ->
  (forall y, In y L -> (0 <= y < Z.of_nat n)%Z) ->
  (0 <= c < Z.of_nat n)%Z -> ~ In c L ->
  length L < n.
Proof.
  intros Hnd Hrange Hc Hnot.
  set (classes := map Z.of_nat (seq 0 n)).
  assert (Hin : forall y, (0 <= y < Z.of_nat n)%Z -> In y classes).
  { intros y Hy. unfold classes. apply in_map_iff. exists (Z.to_nat y).
    split; [lia|]. apply in_seq. lia. }
  assert (Hlen : length classes = n) by (unfold classes; rewrite length_map, length_seq; reflexivity).
  apply Nat.le_lt_trans with (length (remove Z.eq_dec c classes)).
  - apply NoDup_incl_length; [exact Hnd|]. intros y Hy.
    apply in_in_remove.
    + intros ->. contradiction.
    + apply Hin, Hrange, Hy.
  - pose proof (remove_length_lt Z.eq_dec classes c (Hin c Hc)). lia.
Qed.


(** ** Running scripts: inversion of [bind] *)

Lemma bind_Done {A B} (m : Script A) (f : A -> Script B) tr (b : B) :
  bind m f = (tr, Done b) ->
  exists t1 a t2, m = (t1, Done a) /\ f a = (t2, Done b) /\ tr = t1 ++ t2.
Proof.
  unfold bind. destruct m as [t1 [a|st|e]]; try discriminate.
  destruct (f a) as [t2 o] eqn:E. intros [= <- ->].
  exists t1, a, t2. repeat split; assumption.
Qed.

Lemma bind_stopped {A B} (m : Script A) (f : A -> Script B) tr (o : Outcome B) :
  bind m f = (tr, o) ->
  (exists t1 a t2, m = (t1, Done a) /\ f a = (t2, o) /\ tr = t1 ++ t2)
  \/ (exists st, m = (tr, Exit st) /\ o = Exit st)
  \/ (exists e, m = (tr, Raise e) /\ o = Raise e).
Proof.
  unfold bind. destruct m as [t1 [a|st|e]].
  - destruct (f a) as [t2 o'] eqn:E. intros [= <- <-]. left.
    exists t1, a, t2. repeat split; assumption.
  - intros [= <- <-]. right. left. exists st. split; reflexivity.
  - intros [= <- <-]. right. right. exists e. split; reflexivity.
Qed.

Lemma ret_Done {A} (a b : A) tr : ret a = (tr, Done b) -> tr = [] /\ a = b.
Proof. intros [= <- <-]. split; reflexivity. Qed.

Lemma lift_Done {A} (e : Exn) (o : option A) tr (a : A) :
  lift e o = (tr, Done a) -> tr = [] /\ o = Some a.
Proof. destruct o; simpl; [|discriminate]. intros [= <- <-]. split; reflexivity. Qed.

Lemma emit_Done (e : Event) tr (u : unit) : emit e = (tr, Done u) -> tr = [e].
Proof. intros [= <-]. reflexivity. Qed.

Lemma column_Done (ds : Dataset) (c : string) tr (r : list Row) :
  column ds c = (tr, Done r) -> tr = [] /\ r = rows ds /\ has_column ds c = true.
Proof.
  unfold column. destruct (has_column ds c); [|discriminate].
  intros [= <- <-]. repeat split; reflexivity.
Qed.

(** Takes apart every hypothesis saying that a composed script ran to its end. *)
Ltac script_inv :=
  repeat match goal with
    | H : bind _ _ = (_, Done _) |- _ =>
        let t1 := fresh "tr" in let a := fresh "x" in let t2 := fresh "tr" in
        let H1 := fresh "Hrun" in let E := fresh "Etr" in
        apply bind_Done in H; destruct H as (t1 & a & t2 & H1 & H & E)
    | H : ret _ = (_, Done _) |- _ => apply ret_Done in H; destruct H as [? H]
    | H : lift _ _ = (_, Done _) |- _ => apply lift_Done in H; destruct H as [? ?]
    | H : emit _ = (_, Done _) |- _ => apply emit_Done in H
    | H : column _ _ = (_, Done _) |- _ => apply column_Done in H; destruct H as (? & ? & ?)
    | H : print _ = (_, Done _) |- _ => apply emit_Done in H
    | H : raise _ = (_, Done _) |- _ => discriminate H
    | H : sys_exit _ = (_, Done _) |- _ => discriminate H
    end.

(** ** Accuracy is a fraction *)

Lemma n_correct_le (r p : list Z) : n_correct r p <= length r.
Proof.
  unfold n_correct. etransitivity; [apply filter_length_le|].
  rewrite length_combine. apply Nat.le_min_l.
Qed.

Lemma accuracy_score_bounds (r p : list Z) : (0 <= accuracy_score r p <= 1)%Q.
Proof.
  pose proof (n_correct_le r p) as H. unfold accuracy_score, Qle. simpl.
  split; [lia|]. rewrite Z.mul_1_r.
  destruct (length r) as [|n] eqn:E.
  - assert (n_correct r p = 0) as -> by lia. simpl. lia.
  - rewrite <- E in *. replace (Z.pos (Pos.of_nat (length r))) with (Z.of_nat (length r)); [lia|].
    rewrite <- (Nat2Pos.id (length r)) at 1 by lia. apply positive_nat_Z.
Qed.

(** ** Dicts *)

Lemma key_eqb_spec (a b : Key) : reflect (a = b) (key_eqb a b).
Proof.
  destruct a as [s|x], b as [t|y]; simpl; try (constructor; discriminate).
  - destruct (String.eqb_spec s t); constructor; congruence.
  - destruct (Z.eqb_spec x y); constructor; congruence.
Qed.

Lemma dict_get_set_same (k : Key) (v : PyVal) (d : Dict) :
  dict_get k (dict_set k v d) = Some v.
Proof.
  induction d as [|[k' v'] d IH]; simpl.
  - destruct (key_eqb_spec k k); [reflexivity|congruence].
  - destruct (key_eqb k' k) eqn:E; simpl; rewrite E; [reflexivity|exact IH].
Qed.

Lemma dict_get_set_other (k k' : Key) (v : PyVal) (d : Dict) :
  k <> k' -> dict_get k' (dict_set k v d) = dict_get k' d.
Proof.
  intros Hne. induction d as [|[k0 v0] d IH]; simpl.
  - destruct (key_eqb_spec k k'); [contradiction|reflexivity].
  - destruct (key_eqb_spec k0 k) as [->|E]; simpl.
    + destruct (key_eqb_spec k k'); [contradiction|reflexivity].
    + destruct (key_eqb k0 k'); [reflexivity|exact IH].
Qed.

Lemma dict_set_new (k : Key) (v : PyVal) (d : Dict) :
  ~ In k (map fst d) -> dict_set k v d = d ++ [(k, v)].
Proof.
  induction d as [|[k0 v0] d IH]; simpl; intros H; [reflexivity|].
  destruct (key_eqb_spec k0 k) as [->|E]; [exfalso; apply H; left; reflexivity|].
  f_equal. apply IH. intros Hin. apply H. right. exact Hin.
Qed.

(** ** The metrics record grows by one entry per epoch *)

Lemma compute_Done (m : Metric) tr (d : Dict) (m' : Metric) :
  compute m = (tr, Done (d, m')) ->
  exists p r, m = Some (p, r)
    /\ d = [(KStr "accuracy", PFloat (accuracy_score r p))] /\ m' = None /\ tr = [].
Proof.
  destruct m as [[p r]|]; simpl; [|discriminate].
  intros [= <- <- <-]. exists p, r. repeat split; reflexivity.
Qed.

Lemma epoch_keys_S (n : nat) : epoch_keys (S n) = epoch_keys n ++ [KInt (Z.of_nat n)].
Proof. unfold epoch_keys. rewrite seq_S, map_app. reflexivity. Qed.

Lemma epoch_keys_fresh (n : nat) : ~ In (KInt (Z.of_nat n)) (epoch_keys n).
Proof.
  unfold epoch_keys. intros H. apply in_map_iff in H. destruct H as (e & E & Hin).
  apply in_seq in Hin. injection E as E. lia.
Qed.

Lemma set_metric_Done (epoch : nat) (m results : Dict) tr results' :
  set_metric epoch m results = (tr, Done results') ->
  exists metrics,
    dict_get (KStr "metrics") results = Some (PDict metrics)
    /\ results' = dict_set (KStr "metrics")
                    (PDict (dict_set (KInt (Z.of_nat epoch)) (PDict m) metrics)) results.
Proof.
  unfold set_metric. destruct (dict_get (KStr "metrics") results) as [[| | |metrics]|];
    try discriminate.
  intros [= <- <-]. exists metrics. split; reflexivity.
Qed.

Lemma epoch_body_Done (p : Prepared) (n : nat) (s : LoopState) tr s' :
  epoch_body p n s = (tr, Done s') ->
  metrics_record n (results s) ->
  metrics_record (S n) (results s')
  /\ metric s' = None
  /\ (forall k, k <> KStr "metrics" -> dict_get k (results s') = dict_get k (results s)).
Proof.
  unfold epoch_body. intros H (metrics & Hget & Hkeys & Hall). script_inv.
  destruct x1 as [d m']. apply compute_Done in Hrun1.
  destruct Hrun1 as (pp & rr & _ & -> & -> & _).
  apply set_metric_Done in Hrun3. destruct Hrun3 as (metrics' & Hget' & ->).
  rewrite Hget in Hget'. injection Hget' as <-. subst s'. simpl.
  split; [|split].
  - exists (metrics ++ [(KInt (Z.of_nat n), PDict [(KStr "accuracy", PFloat (accuracy_score rr pp))])]).
    rewrite dict_get_set_same, dict_set_new by (rewrite Hkeys; apply epoch_keys_fresh).
    split; [reflexivity|]. split.
    + rewrite map_app, Hkeys, epoch_keys_S. reflexivity.
    + apply Forall_app. split; [exact Hall|]. constructor; [|constructor].
      eexists. split; [reflexivity|]. apply accuracy_score_bounds.
  - reflexivity.
  - intros k Hk. apply dict_get_set_other. congruence.
Qed.

Lemma for_each_epochs_Done (p : Prepared) (k a : nat) (s : LoopState) tr s' :
  for_each (seq a k) (epoch_body p) s = (tr, Done s') ->
  metrics_record a (results s) -> metric s = None ->
  metrics_record (a + k) (results s')
  /\ metric s' = None
  /\ (forall key, key <> KStr "metrics" -> dict_get key (results s') = dict_get key (results s)).
Proof.
  revert a s tr. induction k as [|k IH]; intros a s tr H Hrec Hm; simpl in H.
  - apply ret_Done in H. destruct H as [_ <-]. rewrite Nat.add_0_r. auto.
  - script_inv. destruct (epoch_body_Done _ _ _ _ _ Hrun Hrec) as (Hrec' & Hm' & Hkeep).
    destruct (IH _ _ _ H Hrec' Hm') as (Hrec'' & Hm'' & Hkeep').
    replace (a + S k) with (S a + k) by lia. split; [exact Hrec''|]. split; [exact Hm''|].
    intros key Hkey. rewrite Hkeep', Hkeep by exact Hkey. reflexivity.
Qed.

(** What [prepare] hands to the loops when it runs to its end. *)
Lemma prepare_Done (cfg : Config) (w : World) (argv : list string) tr (p : Prepared) :
  prepare cfg w argv = (tr, Done p) ->
  conjunto p = nth 1 argv EmptyString
  /\ shuffle (train_dataloader p) = true
  /\ shuffle (test_dataloader p) = false
  /\ shuffle (eval_dataloader p) = false
  /\ dict_get (KStr "metrics") (initial_results p) = Some (PDict [])
  /\ dict_get (KStr "eval_size") (initial_results p)
     = Some (PInt (Z.of_nat (length (dataset (eval_dataloader p)))))
  /\ dict_get (KStr "validation_metric") (initial_results p) = None.
Proof.
  unfold prepare. destruct (length argv <? 2).
  - intros H. script_inv.
  - intros H. script_inv. subst. repeat split; reflexivity.
Qed.

(** C1. For a run configured with [num_epochs = E] that comes out of the
    training/evaluation loop, the summary's metrics record has exactly E
    entries, keyed by the integers 0..E-1 in that order, and each entry is a
    mapping with one accuracy value, which lies between 0 and 1. *)
Theorem metrics_after_training_loop (cfg : Config) (w : World) (argv : list string)
    tr (p : Prepared) tr' (s : LoopState) :
  prepare cfg w argv = (tr, Done p) ->
  training_loop cfg p (initial_state p) = (tr', Done s) ->
  exists metrics,
    dict_get (KStr "metrics") (results s) = Some (PDict metrics)
    /\ length metrics = num_epochs cfg
    /\ map fst metrics = map (fun e => KInt (Z.of_nat e)) (seq 0 (num_epochs cfg))
    /\ Forall (fun kv => exists a, snd kv = PDict [(KStr "accuracy", PFloat a)]
                                   /\ (0 <= a <= 1)%Q) metrics.
Proof.
  intros Hp Hloop. apply prepare_Done in Hp. destruct Hp as (_ & _ & _ & _ & Hm & _).
  unfold training_loop in Hloop.
  destruct (for_each_epochs_Done p (num_epochs cfg) 0 _ _ _ Hloop) as ((metrics & Hget & Hkeys & Hall) & _).
  - exists []. repeat split; [exact Hm|constructor].
  - reflexivity.
  - exists metrics. split; [exact Hget|]. split; [|split; [exact Hkeys|exact Hall]].
    rewrite <- (length_map fst), Hkeys. unfold epoch_keys.
    rewrite length_map, length_seq. reflexivity.
Qed.

(** C3 (as the script has it). When the dataset identifier is omitted the
    process prints the usage message and exits before any file or hub access;
    it leaves through [sys.exit()] without an argument, so its exit status
    is 0. *)
Theorem missing_identifier_usage_and_exit (cfg : Config) (w : World) (argv : list string) :
  length argv < 2 ->
  exists tr o,
    main cfg w argv = (tr, o)
    /\ tr = [Print (Text usage)]
    /\ o = Exit 0%Z
    /\ exit_status o = 0%Z
    /\ Forall (fun e => is_file_event e = false) tr.
Proof.
  intros H. exists [Print (Text usage)], (Exit 0%Z).
  split; [|repeat split; repeat constructor].
  unfold main, prepare. apply Nat.ltb_lt in H. rewrite H. reflexivity.
Qed.

(** C2 (as the library builds it). For reference and prediction lists of
    one length the matrix is indexed by the observed labels in ascending
    order: entry (i, j) counts the records whose true label is the i-th and
    whose predicted label is the j-th observed label; the cells sum to the
    number of records; row i sums to the number of records whose true label
    is the i-th observed label.  When the observed labels are exactly
    0..n-1, index and label coincide. *)
Theorem confusion_matrix_counts (y_true y_pred : list Z) :
  length y_true = length y_pred ->
  exists m,
    confusion_matrix y_true y_pred = Some m
    /\ (forall i j, i < length m -> j < length m ->
          cell m i j = count_records (nth i (unique_labels y_true y_pred) 0%Z)
                                     (nth j (unique_labels y_true y_pred) 0%Z)
                                     y_true y_pred)
    /\ total m = Z.of_nat (length y_true)
    /\ (forall i, i < length m ->
          row_sum m i = count_true (nth i (unique_labels y_true y_pred) 0%Z) y_true)
    /\ (unique_labels y_true y_pred = map Z.of_nat (seq 0 (length m)) ->
        forall i j, i < length m -> j < length m ->
          cell m i j = count_records (Z.of_nat i) (Z.of_nat j) y_true y_pred
          /\ row_sum m i = count_true (Z.of_nat i) y_true).
Proof.
  intros Hlen. set (L := unique_labels y_true y_pred).
  set (cells := combine (map (to_ind L) y_true) (map (to_ind L) y_pred)).
  pose proof (unique_labels_NoDup y_true y_pred) as Hnd. fold L in Hnd.
  pose proof (observed_true y_true y_pred) as Ht. fold L in Ht.
  pose proof (observed_pred y_true y_pred) as Hp. fold L in Hp.
  pose proof (index_pairs_in_range L y_true y_pred Ht Hp) as Hrange. fold cells in Hrange.
  assert (Hcell : forall i j, i < length L -> j < length L ->
            cell (coo_toarray (length L) cells) i j
            = count_records (nth i L 0%Z) (nth j L 0%Z) y_true y_pred).
  { intros i j Hi Hj. rewrite coo_toarray_cell by assumption.
    apply count_cell_labels; assumption. }
  assert (Hrow : forall i, i < length L ->
            row_sum (coo_toarray (length L) cells) i = count_true (nth i L 0%Z) y_true).
  { intros i Hi. unfold row_sum. rewrite coo_toarray_row by exact Hi.
    rewrite row_of_cells.
    - apply count_fst_labels; assumption.
    - eapply Forall_impl; [|exact Hrange]. intros c [_ Hc]. exact Hc. }
  exists (coo_toarray (length L) cells). split; [apply confusion_matrix_cells, Hlen|].
  rewrite coo_toarray_length. split; [exact Hcell|]. split; [|split; [exact Hrow|]].
  - rewrite total_coo_toarray by exact Hrange.
    unfold cells. rewrite length_index_pairs by exact Hlen. reflexivity.
  - intros E i j Hi Hj.
    assert (Hnth : forall k, k < length L -> nth k L 0%Z = Z.of_nat k).
    { intros k Hk. rewrite E. rewrite (nth_map_seq Z.of_nat) by exact Hk. reflexivity. }
    rewrite Hcell, Hrow, !Hnth by assumption. split; reflexivity.
Qed.

(** C5. The matrix is square; its dimension is the number of distinct
    labels among the references and predictions, whatever the configured
    number of classes; when the observed labels are classes 0..n-1 of the
    configuration but leave one of them out, the dimension is below n. *)
Theorem confusion_matrix_dimension (y_true y_pred : list Z) (classes : nat) :
  length y_true = length y_pred ->
  exists m,
    confusion_matrix y_true y_pred = Some m
    /\ length m = distinct_count (y_true ++ y_pred)
    /\ Forall (fun row => length row = length m) m
    /\ ((forall y, In y (y_true ++ y_pred) -> (0 <= y < Z.of_nat classes)%Z) ->
        (exists c, (0 <= c < Z.of_nat classes)%Z /\ ~ In c (y_true ++ y_pred)) ->
        length m < classes).
Proof.
  intros Hlen. eexists. split; [apply confusion_matrix_cells, Hlen|].
  rewrite coo_toarray_length. split; [apply unique_labels_distinct_count|]. split.
  - unfold coo_toarray. apply Forall_forall. intros row Hrow.
    apply in_map_iff in Hrow. destruct Hrow as (i & <- & _).
    rewrite length_map, length_seq. reflexivity.
  - intros Hrange (c & Hc & Hnot).
    apply (fewer_labels_than_classes _ classes c).
    + apply unique_labels_NoDup.
    + intros y Hy. apply Hrange, unique_labels_In, Hy.
    + exact Hc.
    + intros Hin. apply Hnot, unique_labels_In, Hin.
Qed.

(** C6. Applying one permutation of the positions to the reference list
    and to the prediction list alike leaves the matrix unchanged; reversing
    both lists is one such rearrangement. *)
Theorem confusion_matrix_order_independent (y_true y_pred : list Z) (sigma : list nat) :
  length y_true = length y_pred ->
  Permutation sigma (seq 0 (length y_true)) ->
  confusion_matrix (map (fun k => nth k y_true 0%Z) sigma)
                   (map (fun k => nth k y_pred 0%Z) sigma)
  = confusion_matrix y_true y_pred
  /\ confusion_matrix (rev y_true) (rev y_pred) = confusion_matrix y_true y_pred.
Proof.
  intros Hlen Hsigma.
  assert (Hzip : forall a b : list Z, length a = length b ->
            map fst (combine a b) = a /\ map snd (combine a b) = b).
  { intros a. induction a as [|x a IH]; intros [|y b] E; try discriminate; simpl.
    - split; reflexivity.
    - injection E as E. destruct (IH b E) as [-> ->]. split; reflexivity. }
  destruct (Hzip y_true y_pred Hlen) as [Ht Hp].
  set (rs := combine y_true y_pred).
  assert (Hrs : length rs = length y_true).
  { unfold rs. rewrite length_combine, <- Hlen. apply Nat.min_id. }
  split.
  - set (rs' := map (fun k => nth k rs (0%Z, 0%Z)) sigma).
    assert (Hperm : Permutation rs rs').
    { unfold rs'. rewrite <- (map_nth_seq rs (0%Z, 0%Z)) at 1.
      apply Permutation_map. rewrite Hrs. symmetry. exact Hsigma. }
    pose proof (confusion_matrix_records rs rs' Hperm) as H.
    fold rs in Ht, Hp. rewrite Ht, Hp in H. rewrite <- H. f_equal.
    + unfold rs', rs. rewrite map_map. apply map_ext. intros k.
      rewrite (combine_nth y_true y_pred k 0%Z 0%Z Hlen). reflexivity.
    + unfold rs', rs. rewrite map_map. apply map_ext. intros k.
      rewrite (combine_nth y_true y_pred k 0%Z 0%Z Hlen). reflexivity.
  - pose proof (confusion_matrix_records rs (rev rs) (Permutation_rev rs)) as H.
    fold rs in Ht, Hp. rewrite Ht, Hp in H. rewrite <- H.
    rewrite !map_rev. fold rs. rewrite Ht, Hp. reflexivity.
Qed.

(** ** Records under [dataset.map] *)

Lemma get_set_same (k : string) (v : Value) (r : Row) : get k (set k v r) = Some v.
Proof.
  induction r as [|[k' v'] r IH]; simpl.
  - rewrite String.eqb_refl. reflexivity.
  - destruct (String.eqb k' k) eqn:E; simpl; rewrite E; [reflexivity|exact IH].
Qed.

Lemma get_set_other (k k' : string) (v : Value) (r : Row) :
  k <> k' -> get k' (set k v r) = get k' r.
Proof.
  intros Hne. induction r as [|[k0 v0] r IH]; simpl.
  - destruct (String.eqb_spec k k'); [contradiction|reflexivity].
  - destruct (String.eqb_spec k0 k) as [->|E]; simpl.
    + destruct (String.eqb_spec k k'); [contradiction|reflexivity].
    + destruct (String.eqb k0 k'); [reflexivity|exact IH].
Qed.

Lemma get_drop (cols : list string) (k : string) (r : Row) :
  get k (drop cols r) = if existsb (String.eqb k) cols then None else get k r.
Proof.
  induction r as [|[k0 v0] r IH]; simpl.
  - destruct (existsb (String.eqb k) cols); reflexivity.
  - destruct (String.eqb_spec k0 k) as [->|E].
    + destruct (existsb (String.eqb k) cols) eqn:Ek; simpl.
      * exact IH.
      * rewrite String.eqb_refl. reflexivity.
    + destruct (existsb (String.eqb k0) cols); simpl; [exact IH|].
      destruct (String.eqb_spec k0 k); [contradiction|exact IH].
Qed.

Lemma map_script_Done {A B} (f : A -> Script B) (l : list A) tr (l' : list B) :
  map_script f l = (tr, Done l') ->
  Forall2 (fun x y => exists t, f x = (t, Done y)) l l'.
Proof.
  revert tr l'. induction l as [|x l IH]; intros tr l' H; simpl in H.
  - apply ret_Done in H. destruct H as [_ <-]. constructor.
  - script_inv. subst l'. constructor; [eexists; eassumption|].
    eapply IH. eassumption.
Qed.

Lemma tokenizer_length (n : nat) (text : string) :
  2 <= n -> length (bos_token_id :: firstn (n - 2) (bpe text) ++ [eos_token_id]) <= n.
Proof.
  intros H. simpl. rewrite length_app, length_firstn. simpl. lia.
Qed.

(** C4 (as the script has it). Every record that [map] transforms loses
    its [texto] and [nota] columns and gains the tokenizer's fields, whose
    ids are the text's ids cut to the maximum length; every other column of
    the record, such as the [labels] the loops read, stays as it was. *)
Theorem dataset_map_drops_texto_nota (cfg : Config) (ds : Dataset) tr (ds' : Dataset) :
  dataset_map cfg ["texto"; "nota"] ds = (tr, Done ds') ->
  Forall2
    (fun r r' =>
       get "texto" r' = None
       /\ get "nota" r' = None
       /\ (exists text,
             get "texto" r = Some (VText text)
             /\ get "input_ids" r'
                = Some (VInts (bos_token_id :: firstn (max_length cfg - 2) (bpe text)
                                 ++ [eos_token_id]))
             /\ (2 <= max_length cfg ->
                 length (bos_token_id :: firstn (max_length cfg - 2) (bpe text)
                           ++ [eos_token_id]) <= max_length cfg))
       /\ (forall k, ~ In k ["texto"; "nota"; "input_ids"; "attention_mask"] ->
             get k r' = get k r))
    (rows ds) (rows ds').
Proof.
  unfold dataset_map. destruct (forallb (has_column ds) ["texto"; "nota"]); [|discriminate].
  destruct (rows ds) as [|r0 rs] eqn:Erows.
  - intros H. apply ret_Done in H. destruct H as [_ <-]. constructor.
  - intros H. script_inv. subst ds'. simpl. apply map_script_Done in Hrun.
    eapply Forall2_impl; [|exact Hrun]. clear. intros r r' (t & H). simpl in H.
    script_inv. subst r'. unfold tokenize in Hrun.
    destruct (get "texto" r) as [[text| |]|] eqn:Etext; try discriminate.
    apply ret_Done in Hrun. destruct Hrun as [_ <-].
    unfold update, tokenizer. simpl fold_left.
    split; [|split; [|split]].
    + rewrite !get_set_other, get_drop by discriminate. reflexivity.
    + rewrite !get_set_other, get_drop by discriminate. reflexivity.
    + exists text. split; [reflexivity|]. split.
      * rewrite get_set_other, get_set_same by discriminate. reflexivity.
      * apply tokenizer_length.
    + intros k Hk. simpl in Hk.
      rewrite !get_set_other, get_drop.
      * simpl. destruct (String.eqb_spec k "texto") as [->|_];
          [exfalso; apply Hk; left; reflexivity|].
        destruct (String.eqb_spec k "nota") as [->|_];
          [exfalso; apply Hk; right; left; reflexivity|].
        reflexivity.
      * intros <-. apply Hk. right; right; left. reflexivity.
      * intros <-. apply Hk. right; right; right; left. reflexivity.
Qed.

(** ** Loops that run to their end *)

Lemma for_each_Done {A S} (body : A -> S -> Script S) (I : list A -> S -> Prop) :
  (forall seen x s t s', I seen s -> body x s = (t, Done s') -> I (seen ++ [x]) s') ->
  forall l seen s tr s',
    I seen s -> for_each l body s = (tr, Done s') -> I (seen ++ l) s'.
Proof.
  intros Hstep l. induction l as [|x l IH]; intros seen s tr s' HI H; simpl in H.
  - apply ret_Done in H. destruct H as [_ <-]. rewrite app_nil_r. exact HI.
  - script_inv. replace (seen ++ x :: l) with ((seen ++ [x]) ++ l)
      by (rewrite <- app_assoc; reflexivity).
    eapply IH; [|eassumption]. eapply Hstep; eassumption.
Qed.

Lemma batch_sampler_concat (bs : nat) (batch order : list nat) :
  concat (batch_sampler bs batch order) = batch ++ order.
Proof.
  revert batch. induction order as [|idx order IH]; intros batch; simpl.
  - destruct batch; simpl; rewrite ?app_nil_r; reflexivity.
  - destruct (length (batch ++ [idx]) =? bs); simpl; rewrite IH.
    + rewrite <- app_assoc. reflexivity.
    + rewrite <- app_assoc. reflexivity.
Qed.

Lemma batch_labels_length (b : Batch) (refs : list Z) :
  batch_labels b = Some refs -> length refs = length b.
Proof.
  revert refs. induction b as [|r b IH]; intros refs; simpl.
  - intros [= <-]. reflexivity.
  - destruct (label_of r); [|discriminate].
    destruct (batch_labels b) as [zs|]; [|discriminate].
    intros [= <-]. simpl. rewrite (IH zs eq_refl). reflexivity.
Qed.

Lemma map_script_lift_Done {A B} (e : Exn) (g : A -> option B) (l : list A) tr (l' : list B) :
  map_script (fun x => lift e (g x)) l = (tr, Done l') ->
  tr = [] /\ Forall2 (fun x y => g x = Some y) l l'.
Proof.
  revert tr l'. induction l as [|x l IH]; intros tr l' H; simpl in H.
  - apply ret_Done in H. destruct H as [-> <-]. split; constructor.
  - script_inv. destruct (IH _ _ Hrun0) as [-> Hall]. subst.
    split; [reflexivity|]. constructor; assumption.
Qed.

Lemma fetch_Done (dl : DataLoader) (idxs : list nat) tr (b : Batch) :
  fetch dl idxs = (tr, Done b) ->
  tr = []
  /\ length b = length idxs
  /\ exists examples,
       Forall2 (fun i r => nth_error (dataset dl) i = Some r) idxs examples
       /\ b = collate_fn examples.
Proof.
  unfold fetch. intros H. script_inv. subst b.
  apply map_script_lift_Done in Hrun. destruct Hrun as [-> Hex]. subst.
  split; [reflexivity|]. split.
  - unfold collate_fn. rewrite length_map. symmetry. eapply Forall2_length. exact Hex.
  - exists x. split; [exact Hex|reflexivity].
Qed.

Lemma predict_Done (t : Torch) (b : Batch) tr (preds refs : list Z) :
  predict t b = (tr, Done (preds, refs)) ->
  tr = [Print (BatchReport preds refs)]
  /\ batch_labels b = Some refs
  /\ exists scores, logits t b = Some scores /\ preds = map argmax scores.
Proof.
  unfold predict. intros H. script_inv. injection H as <- <-. subst.
  split; [reflexivity|]. split; [assumption|].
  eexists. split; [eassumption|reflexivity].
Qed.

Lemma add_batch_Done (preds refs : list Z) (m : Metric) tr (m' : Metric) :
  add_batch preds refs m = (tr, Done m') ->
  tr = [] /\ length preds = length refs
  /\ m' = match m with
          | None => Some (preds, refs)
          | Some (p, r) => Some (p ++ preds, r ++ refs)
          end.
Proof.
  unfold add_batch. destruct (Nat.eqb_spec (length preds) (length refs)) as [E|E];
    [|discriminate].
  destruct m as [[p r]|]; intros [= <- <-]; repeat split; assumption.
Qed.

Lemma write_Done (w : World) (path : string) (c : Content) tr (u : unit) :
  write w path c = (tr, Done u) -> tr = [WriteFile path c] /\ writable w path = true.
Proof.
  unfold write. destruct (writable w path); [|discriminate].
  intros [= <-]. split; reflexivity.
Qed.

(** The eval pass leaves the accumulator holding exactly the two flat lists. *)
Lemma final_evaluation_Done (p : Prepared) (s : LoopState) tr
    (results' : Dict) (preds refs : list Z) :
  final_evaluation p s = (tr, Done (results', preds, refs)) ->
  metric s = None ->
  shuffle (eval_dataloader p) = false ->
  results' = dict_set (KStr "validation_metric")
               (PDict [(KStr "accuracy", PFloat (accuracy_score refs preds))]) (results s)
  /\ length preds = length refs
  /\ length refs = length (dataset (eval_dataloader p))
  /\ 0 < length refs.
Proof.
  unfold final_evaluation, index_batches, sampler. intros H Hm Hsh. rewrite Hsh in H.
  script_inv. destruct x as [[m ap] ar]. simpl in *.
  destruct x0 as [d m']. apply compute_Done in Hrun0.
  destruct Hrun0 as (pp & rr & -> & -> & _ & _). simpl in *.
  injection H as <- <- <-.
  assert (Hpos : 0 < length (dataset (eval_dataloader p))).
  { destruct (dataset (eval_dataloader p)); [|simpl; lia].
    simpl in Hrun. apply ret_Done in Hrun. destruct Hrun as [_ Hrun]. congruence. }
  pose (I := fun (seen : list (list nat)) (acc : Metric * list Z * list Z) =>
               length (snd (fst acc)) = length (snd acc)
               /\ length (snd acc) = length (concat seen)
               /\ ((fst (fst acc) = None /\ snd (fst acc) = [] /\ snd acc = [])
                   \/ fst (fst acc) = Some (snd (fst acc), snd acc))).
  assert (HI : I ([] ++ batch_sampler (loader_batch_size (eval_dataloader p)) []
                          (seq 0 (length (dataset (eval_dataloader p)))))
                 (Some (pp, rr), ap, ar)).
  { eapply (for_each_Done _ I); [|
      |exact Hrun].
    - clear. intros seen idxs [[m ap] ar] t [[m' ap'] ar'] (Hlen & Hseen & Hacc) H.
      simpl in *. script_inv. destruct x0 as [bp br]. simpl in *.
      apply fetch_Done in Hrun. destruct Hrun as (_ & Hb & _).
      apply predict_Done in Hrun0. destruct Hrun0 as (_ & Hlab & _).
      apply add_batch_Done in Hrun1. destruct Hrun1 as (_ & Hpr & ->).
      injection H as <- <- <-. unfold I. simpl.
      apply batch_labels_length in Hlab.
      rewrite concat_app, !length_app. simpl. rewrite app_nil_r.
      split; [lia|]. split; [lia|]. right.
      destruct Hacc as [(-> & -> & ->) | ->]; reflexivity.
    - unfold I. simpl. split; [reflexivity|]. split; [reflexivity|]. left.
      repeat split. exact Hm. }
  destruct HI as (Hlen & Hseen & Hacc). simpl in *.
  rewrite batch_sampler_concat in Hseen. simpl in Hseen. rewrite length_seq in Hseen.
  destruct Hacc as [(Hacc & _)|Hacc]; [discriminate|]. injection Hacc as -> ->.
  repeat split; try assumption. rewrite Hseen. exact Hpos.
Qed.


(** ** The reporting stage and the whole script *)

Lemma report_Done (cfg : Config) (w : World) (p : Prepared) (results : Dict)
    (preds refs : list Z) tr (g : Globals) :
  report cfg w p results preds refs = (tr, Done g) ->
  confusion_matrix refs preds = Some (cm g)
  /\ all_predictions g = preds
  /\ all_references g = refs
  /\ final_results g
     = dict_set (KStr "processing_time") (PFloat ((clock_end w - clock_start w) / 60))
         (dict_set (KStr "date") (PStr (strftime (now w))) results)
  /\ tr = [WriteFile (matrix_path cfg (conjunto p) "csv") (Csv (to_csv (cm g)));
           WriteFile (matrix_path cfg (conjunto p) "png") (Png "Confusion Matrix" (cm g));
           ShowFigure;
           WriteFile (summary_path cfg (strftime (now w)) (conjunto p))
                     (Json (json_dump (PDict (final_results g)) 4));
           Print (Text "finish!!")].
Proof.
  unfold report. intros H. script_inv.
  apply write_Done in Hrun0, Hrun1, Hrun3. destruct Hrun0 as [-> _], Hrun1 as [-> _], Hrun3 as [-> _].
  subst. repeat split; reflexivity || assumption.
Qed.


Lemma main_Done (cfg : Config) (w : World) (argv : list string) tr (g : Globals) :
  main cfg w argv = (tr, Done g) ->
  exists tr1 p tr2 s tr3 results' tr4,
    prepare cfg w argv = (tr1, Done p)
    /\ training_loop cfg p (initial_state p) = (tr2, Done s)
    /\ final_evaluation p s = (tr3, Done (results', all_predictions g, all_references g))
    /\ report cfg w p results' (all_predictions g) (all_references g) = (tr4, Done g)
    /\ tr = tr1 ++ tr2 ++ tr3 ++ tr4.
Proof.
  unfold main. intros H. script_inv. destruct x1 as [[results' preds] refs]. simpl in H.
  destruct (report_Done _ _ _ _ _ _ _ _ H) as (_ & Hp & Hr & _). subst preds refs.
  exists tr0, x, tr2, x0, tr4, results', tr5. subst. repeat split; assumption.
Qed.

Lemma training_loop_Done (cfg : Config) (w : World) (argv : list string)
    tr (p : Prepared) tr' (s : LoopState) :
  prepare cfg w argv = (tr, Done p) ->
  training_loop cfg p (initial_state p) = (tr', Done s) ->
  metric s = None
  /\ forall key, key <> KStr "metrics" ->
       dict_get key (results s) = dict_get key (initial_results p).
Proof.
  intros Hp Hloop. apply prepare_Done in Hp. destruct Hp as (_ & _ & _ & _ & Hm & _).
  unfold training_loop in Hloop.
  destruct (for_each_epochs_Done p (num_epochs cfg) 0 _ _ _ Hloop) as (_ & Hnone & Hkeep).
  - exists []. repeat split; [exact Hm|constructor].
  - reflexivity.
  - split; [exact Hnone|exact Hkeep].
Qed.

Lemma trace_confusion_matrix (refs preds : list Z) (m : list (list Z)) :
  length refs = length preds ->
  confusion_matrix refs preds = Some m ->
  trace m = Z.of_nat (n_correct refs preds).
Proof.
  intros Hlen Hm. rewrite confusion_matrix_cells in Hm by exact Hlen.
  injection Hm as <-. rewrite trace_coo_toarray.
  - apply count_diag_labels.
    + apply unique_labels_NoDup.
    + apply observed_true.
    + apply observed_pred.
  - apply index_pairs_in_range; [apply observed_true|apply observed_pred].
Qed.

(** C10. In a run that reaches the end, the validation accuracy of the
    summary is the trace of the confusion matrix divided by the number of
    eval records: both come from the same aligned predictions and
    references of the eval partition. *)
Theorem validation_accuracy_is_trace_ratio (cfg : Config) (w : World) (argv : list string)
    tr (g : Globals) :
  main cfg w argv = (tr, Done g) ->
  exists a n,
    dict_get (KStr "validation_metric") (final_results g)
    = Some (PDict [(KStr "accuracy", PFloat a)])
    /\ dict_get (KStr "eval_size") (final_results g) = Some (PInt (Z.of_nat n))
    /\ n = length (all_references g)
    /\ length (all_predictions g) = n
    /\ confusion_matrix (all_references g) (all_predictions g) = Some (cm g)
    /\ 0 < n
    /\ a = (trace (cm g) # Pos.of_nat n)
    /\ (a == inject_Z (trace (cm g)) / inject_Z (Z.of_nat n))%Q.
Proof.
  intros H. apply main_Done in H.
  destruct H as (tr1 & p & tr2 & s & tr3 & results' & tr4 & Hp & Hloop & Heval & Hrep & _).
  destruct (training_loop_Done _ _ _ _ _ _ _ Hp Hloop) as (Hnone & Hkeep).
  apply prepare_Done in Hp. destruct Hp as (_ & _ & _ & Hsh & _ & Hsize & Hvm).
  destruct (final_evaluation_Done _ _ _ _ _ _ Heval Hnone Hsh) as (-> & Hlen & Hn & Hpos).
  destruct (report_Done _ _ _ _ _ _ _ _ Hrep) as (Hcm & _ & _ & Hres & _).
  exists (accuracy_score (all_references g) (all_predictions g)), (length (all_references g)).
  assert (Ha : accuracy_score (all_references g) (all_predictions g)
               = (trace (cm g) # Pos.of_nat (length (all_references g)))).
  { unfold accuracy_score. rewrite (trace_confusion_matrix _ _ _ (eq_sym Hlen) Hcm). reflexivity. }
  split; [|split; [|split; [|split; [|split; [|split; [|split]]]]]].
  - rewrite Hres, !dict_get_set_other, dict_get_set_same by discriminate. reflexivity.
  - rewrite Hres, !dict_get_set_other, Hkeep, Hsize, Hn by discriminate. reflexivity.
  - reflexivity.
  - exact Hlen.
  - exact Hcm.
  - exact Hpos.
  - exact Ha.
  - rewrite Ha, Qmake_Qdiv.
    replace (Z.pos (Pos.of_nat (length (all_references g))))
      with (Z.of_nat (length (all_references g))); [reflexivity|].
    rewrite <- (Nat2Pos.id (length (all_references g))) at 1 by lia. apply positive_nat_Z.
Qed.

(** ** Loops that do run to their end *)





Lemma get_pad_row_other (k : string) (n : nat) (r : Row) :
  k <> "input_ids" -> k <> "attention_mask" -> get k (pad_row n r) = get k r.
Proof.
  intros H1 H2. induction r as [|[k0 v0] r IH]; [reflexivity|].
  change (pad_row n ((k0, v0) :: r))
    with ((if String.eqb k0 "input_ids" then (k0, pad_to n pad_token_id v0)
           else if String.eqb k0 "attention_mask" then (k0, pad_to n 0%Z v0)
           else (k0, v0)) :: pad_row n r).
  destruct (String.eqb_spec k0 "input_ids") as [E1|E1];
    [|destruct (String.eqb_spec k0 "attention_mask") as [E2|E2]];
    cbn [get]; destruct (String.eqb_spec k0 k) as [E|E];
    try congruence; exact IH.
Qed.


Section Progress.
Hypothesis randperm_in_range : forall t n, Forall (fun i => i < n) (fst (randperm t n)).
Hypothesis train_step_total : forall t b, exists t', train_step t b = Some t'.
Hypothesis logits_shape :
  forall t b, exists scores, logits t b = Some scores /\ length scores = length b.



End Progress.

(** ** Events that never occur *)

Section Never.
Variable kind : Event -> bool.

Lemma never_ret {A} (a : A) : never kind (ret a).
Proof. constructor. Qed.

Lemma never_raise {A} (e : Exn) : never kind (@raise A e).
Proof. constructor. Qed.

Lemma never_lift {A} (e : Exn) (o : option A) : never kind (lift e o).
Proof. destruct o; constructor. Qed.

Lemma never_emit (e : Event) : kind e = false -> never kind (emit e).
Proof. intros H. constructor; [exact H|constructor]. Qed.

Lemma never_bind {A B} (m : Script A) (f : A -> Script B) :
  never kind m -> (forall a, never kind (f a)) -> never kind (bind m f).
Proof.
  unfold never, bind. destruct m as [t [a|st|e]]; simpl; intros Hm Hf; try exact Hm.
  specialize (Hf a). destruct (f a) as [t' o]. simpl in *.
  apply Forall_app. split; assumption.
Qed.

Lemma never_for_each {A S} (l : list A) (body : A -> S -> Script S) (s : S) :
  (forall x s, never kind (body x s)) -> never kind (for_each l body s).
Proof.
  intros Hbody. revert s. induction l as [|x l IH]; intros s; simpl.
  - apply never_ret.
  - apply never_bind; [apply Hbody|exact IH].
Qed.

Lemma never_map_script {A B} (f : A -> Script B) (l : list A) :
  (forall x, never kind (f x)) -> never kind (map_script f l).
Proof.
  intros Hf. induction l as [|x l IH]; simpl.
  - apply never_ret.
  - apply never_bind; [apply Hf|]. intros y.
    apply never_bind; [exact IH|]. intros ys. apply never_ret.
Qed.
End Never.

(** Discharges [never] goals by following the structure of the script. *)
Ltac never_tac :=
  repeat first
    [ apply never_ret
    | apply never_raise
    | apply never_lift
    | apply never_emit; reflexivity
    | apply never_bind; [|intros]
    | apply never_for_each; intros
    | apply never_map_script; intros
    | match goal with
      | |- never _ (if ?c then _ else _) => destruct c
      | |- never _ (match ?x with _ => _ end) => destruct x
      | |- never _ (let (_, _) := ?x in _) => destruct x
      end ].

Lemma never_fetch (kind : Event -> bool) (dl : DataLoader) (idxs : list nat) :
  never kind (fetch dl idxs).
Proof. unfold fetch. never_tac. Qed.

Lemma never_add_batch (kind : Event -> bool) (p r : list Z) (m : Metric) :
  never kind (add_batch p r m).
Proof. unfold add_batch. never_tac. Qed.

Lemma never_compute (kind : Event -> bool) (m : Metric) : never kind (compute m).
Proof. unfold compute. never_tac. Qed.

Lemma never_dataset_map (kind : Event -> bool) (cfg : Config) (cols : list string) (ds : Dataset) :
  never kind (dataset_map cfg cols ds).
Proof. unfold dataset_map, tokenize. never_tac. Qed.

Lemma prepare_never_trains (cfg : Config) (w : World) (argv : list string) :
  never is_training (prepare cfg w argv).
Proof.
  unfold prepare, sys_exit, print, load_dataset, from_pretrained, column.
  destruct (length argv <? 2).
  - repeat constructor.
  - never_tac; apply never_dataset_map.
Qed.

Lemma prepare_never_writes_summary (cfg : Config) (w : World) (argv : list string) :
  never is_summary_write (prepare cfg w argv).
Proof.
  unfold prepare, sys_exit, print, load_dataset, from_pretrained, column.
  destruct (length argv <? 2).
  - repeat constructor.
  - never_tac; apply never_dataset_map.
Qed.

Lemma training_loop_never_writes_summary (cfg : Config) (p : Prepared) (s : LoopState) :
  never is_summary_write (training_loop cfg p s).
Proof.
  unfold training_loop, epoch_body, train_phase, test_phase, predict, set_metric,
    print, index_batches.
  never_tac; first [apply never_fetch|apply never_add_batch|apply never_compute].
Qed.

Lemma final_evaluation_never_writes_summary (p : Prepared) (s : LoopState) :
  never is_summary_write (final_evaluation p s).
Proof.
  unfold final_evaluation, predict, print, index_batches.
  never_tac; first [apply never_fetch|apply never_add_batch|apply never_compute].
Qed.

(** The reporting stage writes the summary last: if it raises, it has not. *)
Lemma report_raises_before_summary (cfg : Config) (w : World) (p : Prepared)
    (results : Dict) (preds refs : list Z) tr (e : Exn) :
  report cfg w p results preds refs = (tr, Raise e) ->
  Forall (fun ev => is_summary_write ev = false) tr.
Proof.
  unfold report, write, lift.
  destruct (confusion_matrix refs preds) as [m|]; simpl.
  2:{ intros [= <- _]. constructor. }
  destruct (writable w (matrix_path cfg (conjunto p) "csv")); simpl.
  2:{ intros [= <- _]. constructor. }
  destruct (writable w (matrix_path cfg (conjunto p) "png")); simpl.
  2:{ intros [= <- _]. repeat constructor. }
  destruct (writable w (summary_path cfg (strftime (now w)) (conjunto p))); simpl.
  - discriminate.
  - intros [= <- _]. repeat constructor.
Qed.

Lemma bind_Raise_never (kind : Event -> bool) {A B} (m : Script A) (f : A -> Script B)
    tr (e : Exn) :
  bind m f = (tr, Raise e) ->
  never kind m ->
  (forall a t, f a = (t, Raise e) -> Forall (fun ev => kind ev = false) t) ->
  Forall (fun ev => kind ev = false) tr.
Proof.
  intros H Hm Hf. apply bind_stopped in H.
  destruct H as [(t1 & a & t2 & Em & Ef & ->)|[(st & _ & Eo)|(e' & Em & _)]].
  - apply Forall_app. split.
    + unfold never in Hm. rewrite Em in Hm. exact Hm.
    + eapply Hf. exact Ef.
  - discriminate.
  - unfold never in Hm. rewrite Em in Hm. exact Hm.
Qed.

(** With one of the three input files absent, [prepare] raises. *)
Lemma prepare_missing_file (cfg : Config) (w : World) (argv : list string) :
  2 <= length argv ->
  (exists part, In part ["train"; "test"; "eval"]
                /\ parquet w (input_path part (nth 1 argv EmptyString)) = None) ->
  exists tr e, prepare cfg w argv = (tr, Raise e).
Proof.
  intros Hargv (part & Hpart & Hnone). unfold prepare.
  replace (length argv <? 2) with false by (symmetry; apply Nat.ltb_ge; exact Hargv).
  unfold from_pretrained at 1. unfold load_dataset, emit, lift.
  destruct (hub w (model_name_or_path cfg)); simpl; [|do 2 eexists; reflexivity].
  destruct (parquet w (input_path "train" (nth 1 argv EmptyString))) as [d1|] eqn:E1; simpl;
    [|do 2 eexists; reflexivity].
  destruct (parquet w (input_path "test" (nth 1 argv EmptyString))) as [d2|] eqn:E2; simpl;
    [|do 2 eexists; reflexivity].
  destruct (parquet w (input_path "eval" (nth 1 argv EmptyString))) as [d3|] eqn:E3; simpl;
    [|do 2 eexists; reflexivity].
  exfalso. simpl in Hpart. destruct Hpart as [<-|[<-|[<-|[]]]]; congruence.
Qed.

(** C7. With an input file of the dataset identifier missing, the process
    ends with an exception and no optimizer step was taken; and whenever
    the process ends with an exception, no JSON summary was written. *)
Theorem failure_trains_nothing_and_writes_no_summary (cfg : Config) (w : World)
    (argv : list string) tr (o : Outcome Globals) :
  main cfg w argv = (tr, o) ->
  (2 <= length argv ->
   (exists part, In part ["train"; "test"; "eval"]
                 /\ parquet w (input_path part (nth 1 argv EmptyString)) = None) ->
   (exists e, o = Raise e) /\ Forall (fun ev => is_training ev = false) tr)
  /\ (forall e, o = Raise e -> Forall (fun ev => is_summary_write ev = false) tr).
Proof.
  intros Hmain. split.
  - intros Hargv Hmissing.
    destruct (prepare_missing_file cfg w argv Hargv Hmissing) as (t & e & Hp).
    pose proof (prepare_never_trains cfg w argv) as Hnever.
    unfold never in Hnever. unfold main in Hmain. rewrite Hp in *. simpl in *.
    injection Hmain as <- <-. split; [exists e; reflexivity|exact Hnever].
  - intros e ->. unfold main in Hmain.
    eapply bind_Raise_never; [exact Hmain|apply prepare_never_writes_summary|].
    intros p t1 H1.
    eapply bind_Raise_never; [exact H1|apply training_loop_never_writes_summary|].
    intros s t2 H2.
    eapply bind_Raise_never; [exact H2|apply final_evaluation_never_writes_summary|].
    intros ev t3 H3. eapply report_raises_before_summary. exact H3.
Qed.


(** ** The text json.dump writes, line by line *)










Section Layout.
Variable indent : nat.



End Layout.

Lemma two_digits_length (n : nat) : n < 100 -> String.length (two_digits n) = 2.
Proof.
  intros H. do 100 (destruct n as [|n]; [reflexivity|]). lia.
Qed.



(** * Further properties of the script *)

(** ** What the first stage leaves *)

Lemma from_pretrained_Done (w : World) (resource : string) tr (u : unit) :
  from_pretrained w resource = (tr, Done u) -> tr = [FromHub resource] /\ hub w resource = true.
Proof.
  unfold from_pretrained, emit. simpl. destruct (hub w resource); simpl; [|discriminate].
  intros [= <-]. split; reflexivity.
Qed.

Lemma load_dataset_Done (w : World) (path : string) tr (ds : Dataset) :
  load_dataset w path = (tr, Done ds) -> tr = [ReadFile path] /\ parquet w path = Some ds.
Proof.
  unfold load_dataset, emit, lift. simpl. destruct (parquet w path); simpl; [|discriminate].
  intros [= <- <-]. split; reflexivity.
Qed.

Lemma never_anything_nil {A} (m : Script A) : never (fun _ => true) m -> fst m = [].
Proof.
  unfold never. destruct (fst m) as [|e t]; [reflexivity|].
  intros H. inversion H; discriminate.
Qed.

Lemma dataset_map_Done (cfg : Config) (ds : Dataset) tr (ds' : Dataset) :
  dataset_map cfg ["texto"; "nota"] ds = (tr, Done ds') ->
  tr = []
  /\ length (rows ds') = length (rows ds)
  /\ map label_of (rows ds') = map label_of (rows ds).
Proof.
  intros H. split.
  - pose proof (never_anything_nil _ (never_dataset_map (fun _ => true) cfg ["texto"; "nota"] ds)) as N.
    rewrite H in N. exact N.
  - revert H. unfold dataset_map.
    destruct (forallb (has_column ds) ["texto"; "nota"]); [|discriminate].
    destruct (rows ds) as [|r0 rs] eqn:Erows.
    + intros H. apply ret_Done in H. destruct H as [_ <-]. split; reflexivity.
    + remember (r0 :: rs) as l0 eqn:El. intros H. script_inv. subst ds'. simpl.
      apply map_script_Done in Hrun.
      clear - Hrun. induction Hrun as [|r r' l l' (t & Hr) _ [IH1 IH2]]; [split; reflexivity|].
      simpl. rewrite IH1, IH2. split; [reflexivity|]. f_equal.
      simpl in Hr. script_inv. subst r'. unfold tokenize in Hrun.
      destruct (get "texto" r) as [[text| |]|]; try discriminate.
      apply ret_Done in Hrun. destruct Hrun as [_ <-].
      unfold label_of, update, tokenizer. simpl fold_left.
      rewrite !get_set_other, get_drop by discriminate. reflexivity.
Qed.

(** Everything lines 26-154 establish when they run to their end. *)
Lemma prepare_Done_files (cfg : Config) (w : World) (argv : list string) tr (p : Prepared) :
  prepare cfg w argv = (tr, Done p) ->
  2 <= length argv
  /\ exists d1 d2 d3,
       parquet w (input_path "train" (nth 1 argv EmptyString)) = Some d1
       /\ parquet w (input_path "test" (nth 1 argv EmptyString)) = Some d2
       /\ parquet w (input_path "eval" (nth 1 argv EmptyString)) = Some d3
       /\ length (dataset (train_dataloader p)) = length (rows d1)
       /\ length (dataset (test_dataloader p)) = length (rows d2)
       /\ length (dataset (eval_dataloader p)) = length (rows d3)
       /\ map label_of (dataset (test_dataloader p)) = map label_of (rows d2)
       /\ map label_of (dataset (eval_dataloader p)) = map label_of (rows d3)
       /\ loader_batch_size (train_dataloader p) = batch_size cfg
       /\ loader_batch_size (test_dataloader p) = batch_size cfg
       /\ loader_batch_size (eval_dataloader p) = batch_size cfg
       /\ obs p = (if 2 <? length argv then nth 2 argv EmptyString else EmptyString)
       /\ initial_results p
          = [(KStr "batch_size", PInt (Z.of_nat (batch_size cfg)));
             (KStr "model", PStr (model_name_or_path cfg));
             (KStr "epochs", PInt (Z.of_nat (num_epochs cfg)));
             (KStr "metrics", PDict []);
             (KStr "conjunto", PStr (nth 1 argv EmptyString));
             (KStr "obs", PStr (if 2 <? length argv then nth 2 argv EmptyString
                                else EmptyString));
             (KStr "padding_side", PStr (padding_side cfg));
             (KStr "train_size", PInt (Z.of_nat (length (rows d1))));
             (KStr "test_size", PInt (Z.of_nat (length (rows d2))));
             (KStr "eval_size", PInt (Z.of_nat (length (rows d3))));
             (KStr "n_labels", PInt (Z.of_nat (n_labels cfg)))]
       /\ tr = [FromHub (model_name_or_path cfg);
                ReadFile (input_path "train" (nth 1 argv EmptyString));
                ReadFile (input_path "test" (nth 1 argv EmptyString));
                ReadFile (input_path "eval" (nth 1 argv EmptyString));
                FromHub "accuracy";
                FromHub (model_name_or_path cfg);
                Print TrainableParameters;
                Print ModelRepr].
Proof.
  unfold prepare. destruct (Nat.ltb_spec (length argv) 2) as [Hlt|Hge].
  - intros H. script_inv.
  - intros H. split; [exact Hge|]. script_inv.
    repeat match goal with
      | H : from_pretrained _ _ = (_, Done _) |- _ =>
          apply from_pretrained_Done in H; destruct H as [? _]
      | H : load_dataset _ _ = (_, Done _) |- _ =>
          apply load_dataset_Done in H; destruct H as [? ?]
      | H : dataset_map _ _ _ = (_, Done _) |- _ =>
          apply dataset_map_Done in H; destruct H as (? & ? & ?)
      end.
    subst. simpl.
    match goal with
    | H1 : parquet w (input_path "train" _) = Some ?d1,
      H2 : parquet w (input_path "test" _) = Some ?d2,
      H3 : parquet w (input_path "eval" _) = Some ?d3 |- _ =>
        exists d1, d2, d3
    end.
    repeat match goal with
      | H : length (rows _) = length (rows _) |- _ => rewrite H; clear H
      end.
    repeat split; assumption || reflexivity.
Qed.

(** ** The summary at the end of a run *)

Lemma main_Done_results (cfg : Config) (w : World) (argv : list string) tr (g : Globals) :
  main cfg w argv = (tr, Done g) ->
  exists tr1 p,
    prepare cfg w argv = (tr1, Done p)
    /\ dict_get (KStr "processing_time") (final_results g)
       = Some (PFloat ((clock_end w - clock_start w) / 60))
    /\ forall key,
         ~ In key [KStr "metrics"; KStr "validation_metric"; KStr "date";
                   KStr "processing_time"] ->
         dict_get key (final_results g) = dict_get key (initial_results p).
Proof.
  intros H. apply main_Done in H.
  destruct H as (tr1 & p & tr2 & s & tr3 & results' & tr4 & Hp & Hloop & Heval & Hrep & _).
  destruct (training_loop_Done _ _ _ _ _ _ _ Hp Hloop) as (Hnone & Hkeep).
  pose proof Hp as Hp'. apply prepare_Done in Hp'. destruct Hp' as (_ & _ & _ & Hsh & _).
  destruct (final_evaluation_Done _ _ _ _ _ _ Heval Hnone Hsh) as (-> & _).
  destruct (report_Done _ _ _ _ _ _ _ _ Hrep) as (_ & _ & _ & Hres & _).
  exists tr1, p. split; [exact Hp|]. split.
  - rewrite Hres. apply dict_get_set_same.
  - intros key Hkey. simpl in Hkey. rewrite Hres.
    rewrite !dict_get_set_other.
    + apply Hkeep. intros ->. apply Hkey. left. reflexivity.
    + intros <-. apply Hkey. right. left. reflexivity.
    + intros <-. apply Hkey. right. right. left. reflexivity.
    + intros <-. apply Hkey. right. right. right. left. reflexivity.
Qed.

(** Reads a key of the first stage's dict off its listing. *)
Ltac summary_key Hkeep Hinit :=
  rewrite Hkeep, Hinit;
  [reflexivity
  |simpl; intros Hin; repeat (destruct Hin as [Hin|Hin]; [discriminate Hin|]); exact Hin].

(** X1. In a run that reaches its end, the summary's train_size, test_size
    and eval_size are the numbers of records of the three input files. *)
Theorem summary_sizes_count_file_records (cfg : Config) (w : World) (argv : list string)
    tr (g : Globals) :
  main cfg w argv = (tr, Done g) ->
  exists d1 d2 d3,
    parquet w (input_path "train" (nth 1 argv EmptyString)) = Some d1
    /\ parquet w (input_path "test" (nth 1 argv EmptyString)) = Some d2
    /\ parquet w (input_path "eval" (nth 1 argv EmptyString)) = Some d3
    /\ dict_get (KStr "train_size") (final_results g)
       = Some (PInt (Z.of_nat (length (rows d1))))
    /\ dict_get (KStr "test_size") (final_results g)
       = Some (PInt (Z.of_nat (length (rows d2))))
    /\ dict_get (KStr "eval_size") (final_results g)
       = Some (PInt (Z.of_nat (length (rows d3)))).
Proof.
  intros H. apply main_Done_results in H. destruct H as (tr1 & p & Hp & _ & Hkeep).
  apply prepare_Done_files in Hp.
  destruct Hp as (_ & d1 & d2 & d3 & H1 & H2 & H3 & _ & _ & _ & _ & _ & _ & _ & _ & _ & Hinit & _).
  exists d1, d2, d3. repeat split; try assumption; summary_key Hkeep Hinit.
Qed.

(** X2. In a run that reaches its end, the summary carries the dataset
    identifier and the optional note of the command line unchanged (the
    note is empty when none is given), the configured constants, and the
    elapsed wall time in minutes. *)
Theorem summary_carries_arguments_and_configuration (cfg : Config) (w : World)
    (argv : list string) tr (g : Globals) :
  main cfg w argv = (tr, Done g) ->
  dict_get (KStr "conjunto") (final_results g) = Some (PStr (nth 1 argv EmptyString))
  /\ dict_get (KStr "obs") (final_results g)
     = Some (PStr (if 2 <? length argv then nth 2 argv EmptyString else EmptyString))
  /\ dict_get (KStr "batch_size") (final_results g)
     = Some (PInt (Z.of_nat (batch_size cfg)))
  /\ dict_get (KStr "model") (final_results g) = Some (PStr (model_name_or_path cfg))
  /\ dict_get (KStr "epochs") (final_results g) = Some (PInt (Z.of_nat (num_epochs cfg)))
  /\ dict_get (KStr "padding_side") (final_results g) = Some (PStr (padding_side cfg))
  /\ dict_get (KStr "n_labels") (final_results g) = Some (PInt (Z.of_nat (n_labels cfg)))
  /\ dict_get (KStr "processing_time") (final_results g)
     = Some (PFloat ((clock_end w - clock_start w) / 60)).
Proof.
  intros H. apply main_Done_results in H. destruct H as (tr1 & p & Hp & Htime & Hkeep).
  apply prepare_Done_files in Hp.
  destruct Hp as (_ & d1 & d2 & d3 & _ & _ & _ & _ & _ & _ & _ & _ & _ & _ & _ & _ & Hinit & _).
  repeat split; try exact Htime; summary_key Hkeep Hinit.
Qed.

(** ** The events of each stage *)

Lemma prepare_events (cfg : Config) (w : World) (argv : list string) :
  never outside_prepare (prepare cfg w argv).
Proof.
  unfold prepare, sys_exit, print, load_dataset, from_pretrained, column.
  destruct (length argv <? 2).
  - repeat constructor.
  - never_tac; apply never_dataset_map.
Qed.

Lemma training_loop_events (cfg : Config) (p : Prepared) (s : LoopState) :
  never outside_training (training_loop cfg p s).
Proof.
  unfold training_loop, epoch_body, train_phase, test_phase, predict, set_metric,
    print, index_batches.
  never_tac; first [apply never_fetch|apply never_add_batch|apply never_compute].
Qed.

Lemma final_evaluation_events (p : Prepared) (s : LoopState) :
  never outside_evaluation (final_evaluation p s).
Proof.
  unfold final_evaluation, predict, print, index_batches.
  never_tac; first [apply never_fetch|apply never_add_batch|apply never_compute].
Qed.

Lemma report_events (cfg : Config) (w : World) (p : Prepared) (results : Dict)
    (preds refs : list Z) :
  never outside_report (report cfg w p results preds refs).
Proof. unfold report, write, print. never_tac. Qed.

Lemma filter_none {A} (keep avoid : A -> bool) (l : list A) :
  Forall (fun x => avoid x = false) l ->
  (forall x, keep x = true -> avoid x = true) ->
  filter keep l = [].
Proof.
  intros Hall Himp. induction Hall as [|x l Hx _ IH]; [reflexivity|]. simpl.
  destruct (keep x) eqn:E; [|exact IH]. rewrite (Himp x E) in Hx. discriminate.
Qed.



(** X4. A run that reaches its end has read exactly the three input files
    of its dataset identifier, in the order train, test, eval, and has
    written exactly three files: the matrix as CSV, the matrix as PNG and
    the JSON summary, in that order; the two matrix files are named
    results/confusion_matrix_<id>_<epochs>_epochs.csv and .png. *)
Theorem files_read_and_written (cfg : Config) (w : World) (argv : list string)
    tr (g : Globals) :
  main cfg w argv = (tr, Done g) ->
  let id := nth 1 argv EmptyString in
  let epochs := string_of_nat (num_epochs cfg) in
  filter is_read tr
  = [ReadFile ("preprocessing/train_conjunto_" ++ id ++ "_output.parquet");
     ReadFile ("preprocessing/test_conjunto_" ++ id ++ "_output.parquet");
     ReadFile ("preprocessing/eval_conjunto_" ++ id ++ "_output.parquet")]%string
  /\ filter is_write tr
     = [WriteFile ("results/confusion_matrix_" ++ id ++ "_" ++ epochs ++ "_epochs.csv")
          (Csv (to_csv (cm g)));
        WriteFile ("results/confusion_matrix_" ++ id ++ "_" ++ epochs ++ "_epochs.png")
          (Png "Confusion Matrix" (cm g));
        WriteFile (summary_path cfg (strftime (now w)) id)
          (Json (json_dump (PDict (final_results g)) 4))]%string.
Proof.
  intros H id epochs. apply main_Done in H.
  destruct H as (tr1 & p & tr2 & s & tr3 & results' & tr4 & Hp & Hloop & Heval & Hrep & ->).
  pose proof (training_loop_events cfg p (initial_state p)) as N2.
  pose proof (final_evaluation_events p s) as N3.
  unfold never in N2, N3. rewrite Hloop in N2. rewrite Heval in N3. simpl in N2, N3.
  pose proof Hp as Hid. apply prepare_Done in Hid. destruct Hid as (Hid & _).
  apply prepare_Done_files in Hp.
  destruct Hp as (_ & d1 & d2 & d3 & _ & _ & _ & _ & _ & _ & _ & _ & _ & _ & _ & _ & _ & ->).
  destruct (report_Done _ _ _ _ _ _ _ _ Hrep) as (_ & _ & _ & _ & ->).
  rewrite !filter_app.
  rewrite (filter_none is_read outside_training tr2 N2) by (intros [] E; try discriminate E; reflexivity).
  rewrite (filter_none is_read outside_evaluation tr3 N3) by (intros [] E; try discriminate E; reflexivity).
  rewrite (filter_none is_write outside_training tr2 N2) by (intros [] E; try discriminate E; reflexivity).
  rewrite (filter_none is_write outside_evaluation tr3 N3) by (intros [] E; try discriminate E; reflexivity).
  rewrite Hid. split; reflexivity.
Qed.

(** ** Batches *)

(** The batches are full ones followed by at most one shorter, non-empty one. *)
Lemma batch_sampler_shape (bs : nat) (order batch : list nat) :
  0 < bs -> length batch < bs ->
  exists full last,
    batch_sampler bs batch order = full ++ last
    /\ Forall (fun b => length b = bs) full
    /\ (last = [] \/ exists b, last = [b] /\ 0 < length b < bs).
Proof.
  intros Hbs. revert batch. induction order as [|idx order IH]; intros batch Hlt; simpl.
  - destruct batch as [|i batch].
    + exists [], []. split; [reflexivity|]. split; [constructor|]. left. reflexivity.
    + exists [], [i :: batch]. split; [reflexivity|]. split; [constructor|].
      right. eexists. split; [reflexivity|]. simpl in *. lia.
  - destruct (Nat.eqb_spec (length (batch ++ [idx])) bs) as [E|E].
    + destruct (IH [] Hbs) as (full & last & -> & Hfull & Hlast).
      exists ((batch ++ [idx]) :: full), last. split; [reflexivity|].
      split; [constructor; assumption|exact Hlast].
    + apply IH. rewrite length_app in *. simpl in *. lia.
Qed.

Lemma length_concat_full (bs : nat) (full : list (list nat)) :
  Forall (fun b => length b = bs) full -> length (concat full) = bs * length full.
Proof.
  induction 1 as [|b full Hb _ IH]; simpl; [lia|]. rewrite length_app, IH, Hb. lia.
Qed.

(** Their number is the record count divided by the batch size, rounded up. *)
Lemma batch_sampler_length (bs : nat) (order : list nat) :
  0 < bs ->
  length (batch_sampler bs [] order) = (length order + bs - 1) / bs.
Proof.
  intros Hbs. destruct (batch_sampler_shape bs order [] Hbs Hbs) as (full & last & E & Hfull & Hlast).
  pose proof (batch_sampler_concat bs [] order) as Hc. rewrite E in Hc. simpl in Hc.
  apply (f_equal (@length nat)) in Hc. rewrite concat_app, length_app in Hc.
  rewrite (length_concat_full bs full Hfull) in Hc. rewrite E, length_app.
  destruct Hlast as [->|(b & -> & Hb)]; simpl in *.
  - apply (Nat.div_unique _ _ _ (bs - 1)); lia.
  - rewrite app_nil_r in Hc. apply (Nat.div_unique _ _ _ (length b - 1)); lia.
Qed.

(** X5. Whatever the order of the indices, a loader of the script cuts it
    into batches of exactly batch_size indices, except that the last batch
    may be shorter; no batch is empty, the batches together are the sampled
    order, and without shuffling their number is the record count divided
    by the batch size, rounded up. *)
Theorem batches_are_full_except_the_last (cfg : Config) (ds : Dataset) (shuffled : bool)
    (t : Torch) :
  0 < batch_size cfg ->
  let dl := make_loader cfg ds shuffled in
  let batches := fst (index_batches dl t) in
  concat batches = fst (sampler dl t)
  /\ Forall (fun b => 0 < length b <= batch_size cfg) batches
  /\ (exists full last,
        batches = full ++ last
        /\ Forall (fun b => length b = batch_size cfg) full
        /\ (last = [] \/ exists b, last = [b] /\ 0 < length b < batch_size cfg))
  /\ (shuffled = false ->
      length batches = (length (rows ds) + batch_size cfg - 1) / batch_size cfg).
Proof.
  intros Hbs dl batches. unfold batches, index_batches.
  destruct (sampler dl t) as [order t'] eqn:Es. simpl.
  destruct (batch_sampler_shape (batch_size cfg) order [] Hbs Hbs)
    as (full & last & E & Hfull & Hlast).
  split; [apply batch_sampler_concat|]. split; [|split].
  - rewrite E. apply Forall_app. split.
    + eapply Forall_impl; [|exact Hfull]. simpl. intros b Hb. lia.
    + destruct Hlast as [->|(b & -> & Hb)]; constructor; [lia|constructor].
  - exists full, last. split; [exact E|]. split; assumption.
  - intros ->. unfold dl, sampler in Es. simpl in Es. injection Es as <- _.
    rewrite batch_sampler_length by exact Hbs. rewrite length_seq. reflexivity.
Qed.

(** ** Padding a batch *)

Lemma get_pad_row_ids (n : nat) (r : Row) :
  get "input_ids" (pad_row n r) = option_map (pad_to n pad_token_id) (get "input_ids" r).
Proof.
  induction r as [|[k0 v0] r IH]; [reflexivity|].
  change (pad_row n ((k0, v0) :: r))
    with ((if String.eqb k0 "input_ids" then (k0, pad_to n pad_token_id v0)
           else if String.eqb k0 "attention_mask" then (k0, pad_to n 0%Z v0)
           else (k0, v0)) :: pad_row n r).
  cbn [get]. destruct (String.eqb_spec k0 "input_ids") as [E1|E1].
  - cbn [get]. subst k0. rewrite String.eqb_refl. reflexivity.
  - destruct (String.eqb_spec k0 "attention_mask") as [E2|E2]; cbn [get];
      destruct (String.eqb_spec k0 "input_ids"); try contradiction; exact IH.
Qed.

Lemma get_pad_row_mask (n : nat) (r : Row) :
  get "attention_mask" (pad_row n r) = option_map (pad_to n 0%Z) (get "attention_mask" r).
Proof.
  induction r as [|[k0 v0] r IH]; [reflexivity|].
  change (pad_row n ((k0, v0) :: r))
    with ((if String.eqb k0 "input_ids" then (k0, pad_to n pad_token_id v0)
           else if String.eqb k0 "attention_mask" then (k0, pad_to n 0%Z v0)
           else (k0, v0)) :: pad_row n r).
  cbn [get]. destruct (String.eqb_spec k0 "input_ids") as [E1|E1].
  - cbn [get]. subst k0. exact IH.
  - destruct (String.eqb_spec k0 "attention_mask") as [E2|E2]; cbn [get].
    + subst k0. rewrite String.eqb_refl. reflexivity.
    + destruct (String.eqb_spec k0 "attention_mask"); [contradiction|exact IH].
Qed.

Lemma input_length_le_longest (examples : list Row) (r : Row) :
  In r examples -> input_length r <= fold_right Nat.max 0 (map input_length examples).
Proof.
  induction examples as [|x examples IH]; [intros []|].
  simpl. intros [->|H]; [lia|]. specialize (IH H). lia.
Qed.

Lemma longest_is_attained (examples : list Row) :
  examples <> [] ->
  exists r, In r examples
            /\ input_length r = fold_right Nat.max 0 (map input_length examples).
Proof.
  induction examples as [|x examples IH]; [congruence|]. intros _.
  destruct examples as [|y examples].
  - exists x. split; [left; reflexivity|]. simpl. lia.
  - destruct IH as (r & Hr & E); [discriminate|].
    change (fold_right Nat.max 0 (map input_length (x :: y :: examples)))
      with (Nat.max (input_length x) (fold_right Nat.max 0 (map input_length (y :: examples)))).
    destruct (Nat.max_spec (input_length x)
                (fold_right Nat.max 0 (map input_length (y :: examples)))) as [[_ ->]|[_ ->]].
    + exists r. split; [right; exact Hr|exact E].
    + exists x. split; [left; reflexivity|reflexivity].
Qed.

(** X6. The collator pads on the right, to the longest record of the batch
    and no further: every record's input_ids are its own ids followed by
    pad ids up to that length, its attention_mask is extended by zeros in
    the same way, every other field is left alone, and some record of a
    non-empty batch is not padded at all. *)
Theorem collate_pads_to_the_longest (examples : list Row) :
  let longest := fold_right Nat.max 0 (map input_length examples) in
  Forall2
    (fun r r' =>
       (forall ids, get "input_ids" r = Some (VInts ids) ->
          get "input_ids" r' = Some (VInts (ids ++ repeat pad_token_id (longest - length ids)))
          /\ length (ids ++ repeat pad_token_id (longest - length ids)) = longest)
       /\ (forall mask, get "attention_mask" r = Some (VInts mask) ->
            get "attention_mask" r'
            = Some (VInts (mask ++ repeat 0%Z (longest - length mask))))
       /\ (forall k, k <> "input_ids" -> k <> "attention_mask" -> get k r' = get k r))
    examples (collate_fn examples)
  /\ (examples <> [] -> exists r, In r examples /\ input_length r = longest).
Proof.
  intros longest. split; [|apply longest_is_attained].
  unfold collate_fn. fold longest.
  assert (Hle : forall r, In r examples -> input_length r <= longest)
    by (intros r; apply input_length_le_longest).
  clearbody longest. induction examples as [|r examples IH]; simpl; constructor.
  - split; [|split].
    + intros ids Hids. rewrite get_pad_row_ids, Hids. simpl. split; [reflexivity|].
      specialize (Hle r (or_introl eq_refl)). unfold input_length in Hle. rewrite Hids in Hle.
      rewrite length_app, repeat_length. lia.
    + intros mask Hmask. rewrite get_pad_row_mask, Hmask. reflexivity.
    + intros k H1 H2. apply get_pad_row_other; assumption.
  - apply IH. intros x Hx. apply Hle. right. exact Hx.
Qed.

(** ** The predicted class *)

Lemma argmax_from_spec (l pre : list Q) (best : Q) (best_i : nat) :
  best_i < length pre ->
  nth best_i pre 0%Q = best ->
  (forall j, j < length pre -> (nth j pre 0 <= best)%Q) ->
  (forall j, j < best_i -> (nth j pre 0 < best)%Q) ->
  let i := argmax_from best best_i (length pre) l in
  i < length (pre ++ l)
  /\ (forall j, j < length (pre ++ l) -> (nth j (pre ++ l) 0 <= nth i (pre ++ l) 0)%Q)
  /\ (forall j, j < i -> (nth j (pre ++ l) 0 < nth i (pre ++ l) 0)%Q).
Proof.
  revert pre best best_i. induction l as [|x l IH]; intros pre best best_i Hi Hbest Hmax Hfirst.
  - simpl. rewrite app_nil_r. rewrite Hbest. repeat split; assumption.
  - cbn [argmax_from].
    assert (Epre : pre ++ x :: l = (pre ++ [x]) ++ l) by (rewrite <- app_assoc; reflexivity).
    assert (Elen : S (length pre) = length (pre ++ [x])) by (rewrite length_app; simpl; lia).
    assert (Hnth : forall j, j < length pre -> nth j (pre ++ [x]) 0%Q = nth j pre 0%Q)
      by (intros j Hj; apply app_nth1; exact Hj).
    assert (Hx : nth (length pre) (pre ++ [x]) 0%Q = x)
      by (rewrite app_nth2, Nat.sub_diag by lia; reflexivity).
    rewrite Epre, Elen. destruct (Qle_bool x best) eqn:E.
    + apply Qle_bool_iff in E. apply IH.
      * rewrite <- Elen. lia.
      * rewrite Hnth by exact Hi. exact Hbest.
      * intros j Hj. rewrite <- Elen in Hj.
        destruct (Nat.eq_dec j (length pre)) as [->|Hne]; [rewrite Hx; exact E|].
        rewrite Hnth by lia. apply Hmax. lia.
      * intros j Hj. rewrite Hnth by lia. apply Hfirst. exact Hj.
    + assert (Hlt : (best < x)%Q).
      { apply Qnot_le_lt. intros H. apply Qle_bool_iff in H. congruence. }
      apply IH.
      * rewrite <- Elen. lia.
      * exact Hx.
      * intros j Hj. rewrite <- Elen in Hj.
        destruct (Nat.eq_dec j (length pre)) as [->|Hne]; [rewrite Hx; apply Qle_refl|].
        rewrite Hnth by lia. apply Qle_trans with best; [apply Hmax; lia|].
        apply Qlt_le_weak. exact Hlt.
      * intros j Hj. rewrite Hnth by lia.
        apply Qle_lt_trans with best; [apply Hmax; exact Hj|exact Hlt].
Qed.

(** X7. The predicted class of a record is a position of its score row, no
    other score is larger than the one at that position, and every score
    before it is strictly smaller: ties go to the first maximum. *)
Theorem argmax_is_first_maximum (scores : list Q) :
  scores <> [] ->
  let i := Z.to_nat (argmax scores) in
  (0 <= argmax scores < Z.of_nat (length scores))%Z
  /\ (forall j, j < length scores -> (nth j scores 0 <= nth i scores 0)%Q)
  /\ (forall j, j < i -> (nth j scores 0 < nth i scores 0)%Q).
Proof.
  destruct scores as [|x l]; [congruence|]. intros _. unfold argmax.
  rewrite Nat2Z.id.
  destruct (argmax_from_spec l [x] x 0) as (H1 & H2 & H3).
  - simpl. lia.
  - reflexivity.
  - intros j Hj. simpl in Hj. replace j with 0 by lia. apply Qle_refl.
  - intros j Hj. lia.
  - simpl in *. split; [lia|]. split; assumption.
Qed.

(** ** References follow the partition *)

Lemma batch_labels_Forall2 (b : Batch) (refs : list Z) :
  batch_labels b = Some refs -> Forall2 (fun r z => label_of r = Some z) b refs.
Proof.
  revert refs. induction b as [|r b IH]; intros refs; simpl.
  - intros [= <-]. constructor.
  - destruct (label_of r) as [z|] eqn:Ez; [|discriminate].
    destruct (batch_labels b) as [zs|]; [|discriminate].
    intros [= <-]. constructor; [exact Ez|]. apply IH. reflexivity.
Qed.

Lemma label_of_pad_row (n : nat) (r : Row) : label_of (pad_row n r) = label_of r.
Proof. unfold label_of. rewrite get_pad_row_other by discriminate. reflexivity. Qed.

(** One batch: its references are the labels of the records at its indices. *)
Lemma batch_references (dl : DataLoader) (t : Torch) (idxs : list nat)
    t1 (b : Batch) t2 (bp br : list Z) :
  fetch dl idxs = (t1, Done b) ->
  predict t b = (t2, Done (bp, br)) ->
  Forall2 (labelled_at (dataset dl)) idxs br.
Proof.
  intros Hf Hp. apply fetch_Done in Hf. destruct Hf as (_ & _ & examples & Hex & ->).
  apply predict_Done in Hp. destruct Hp as (_ & Hlab & _).
  apply batch_labels_Forall2 in Hlab. unfold collate_fn in Hlab.
  revert Hlab. generalize (fold_right Nat.max 0 (map input_length examples)). intros n.
  revert br. induction Hex as [|i r idxs examples Hi _ IH]; intros br Hlab; simpl in Hlab.
  - inversion Hlab. constructor.
  - inversion Hlab as [|r' z b' br' Hz Hrest]; subst. constructor.
    + exists r. split; [exact Hi|]. rewrite label_of_pad_row in Hz. exact Hz.
    + apply IH. exact Hrest.
Qed.

Lemma labels_in_order_from (pre ds : list Row) (refs : list Z) :
  Forall2 (labelled_at (pre ++ ds)) (seq (length pre) (length ds)) refs ->
  map label_of ds = map Some refs.
Proof.
  revert pre refs. induction ds as [|r ds IH]; intros pre refs H; simpl in H.
  - inversion H. reflexivity.
  - inversion H as [|i z idxs refs' (r' & Hr' & Hz) Hrest]; subst. simpl.
    rewrite nth_error_app2, Nat.sub_diag in Hr' by lia. injection Hr' as <-.
    rewrite Hz. f_equal. apply (IH (pre ++ [r])).
    rewrite <- app_assoc, length_app. simpl. rewrite Nat.add_1_r. exact Hrest.
Qed.

Lemma labels_in_order (ds : list Row) (refs : list Z) :
  Forall2 (labelled_at ds) (seq 0 (length ds)) refs -> map label_of ds = map Some refs.
Proof. apply (labels_in_order_from [] ds refs). Qed.

(** A pass over the test loader from an empty accumulator. *)
Lemma test_phase_Done (dl : DataLoader) (t : Torch) tr (t' : Torch) (m' : Metric) :
  test_phase dl t None = (tr, Done (t', m')) ->
  shuffle dl = false ->
  (m' = None /\ dataset dl = [])
  \/ exists p r, m' = Some (p, r)
                 /\ length p = length r
                 /\ map label_of (dataset dl) = map Some r.
Proof.
  unfold test_phase, index_batches, sampler. intros H Hsh. rewrite Hsh in H.
  script_inv. injection H as _ <-.
  pose (I := fun (seen : list (list nat)) (m : Metric) =>
               (seen = [] /\ m = None)
               \/ exists p r, m = Some (p, r) /\ length p = length r
                              /\ Forall2 (labelled_at (dataset dl)) (concat seen) r).
  assert (HI : I ([] ++ batch_sampler (loader_batch_size dl) [] (seq 0 (length (dataset dl)))) x).
  { eapply (for_each_Done _ I); [| |exact Hrun].
    - clear. intros seen idxs m tr m' HI H. cbv beta in H. script_inv.
      destruct x0 as [bp br]. simpl in *.
      pose proof (batch_references _ _ _ _ _ _ _ _ Hrun Hrun0) as Hrefs.
      apply add_batch_Done in H. destruct H as (_ & Hpr & ->).
      unfold I. right. rewrite concat_app. simpl. rewrite app_nil_r.
      destruct HI as [(-> & ->)|(p & r & -> & Hlen & Hall)].
      + exists bp, br. repeat split; assumption.
      + exists (p ++ bp), (r ++ br). split; [reflexivity|]. split.
        * rewrite !length_app. lia.
        * apply Forall2_app; assumption.
    - left. split; reflexivity. }
  simpl in HI. destruct HI as [(E & ->)|(p & r & -> & Hlen & Hall)].
  - left. split; [reflexivity|].
    pose proof (batch_sampler_concat (loader_batch_size dl) [] (seq 0 (length (dataset dl)))) as Hc.
    rewrite E in Hc. simpl in Hc. destruct (dataset dl); [reflexivity|discriminate].
  - right. exists p, r. split; [reflexivity|]. split; [exact Hlen|].
    rewrite batch_sampler_concat in Hall. apply labels_in_order. exact Hall.
Qed.

Lemma final_evaluation_references (p : Prepared) (s : LoopState) tr
    (results' : Dict) (preds refs : list Z) :
  final_evaluation p s = (tr, Done (results', preds, refs)) ->
  shuffle (eval_dataloader p) = false ->
  map label_of (dataset (eval_dataloader p)) = map Some refs.
Proof.
  unfold final_evaluation, index_batches, sampler. intros H Hsh. rewrite Hsh in H.
  script_inv. destruct x as [[m ap] ar]. simpl in *. injection H as _ _ <-.
  apply labels_in_order.
  pose (I := fun (seen : list (list nat)) (acc : Metric * list Z * list Z) =>
               Forall2 (labelled_at (dataset (eval_dataloader p))) (concat seen) (snd acc)).
  assert (HI : I ([] ++ batch_sampler (loader_batch_size (eval_dataloader p)) []
                          (seq 0 (length (dataset (eval_dataloader p)))))
                 (m, ap, ar)).
  { eapply (for_each_Done _ I); [| |exact Hrun].
    - clear. intros seen idxs [[m ap] ar] t [[m' ap'] ar'] HI H. unfold I in *. simpl in *.
      script_inv. destruct x0 as [bp br]. simpl in *.
      pose proof (batch_references _ _ _ _ _ _ _ _ Hrun Hrun0) as Hrefs.
      injection H as _ _ <-. rewrite concat_app. simpl. rewrite app_nil_r.
      apply Forall2_app; assumption.
    - constructor. }
  unfold I in HI. simpl in HI. rewrite batch_sampler_concat in HI. exact HI.
Qed.

Lemma Forall_dict_set (Q : PyVal -> Prop) (k : Key) (v : PyVal) (d : Dict) :
  Forall (fun kv => Q (snd kv)) d -> Q v -> Forall (fun kv => Q (snd kv)) (dict_set k v d).
Proof.
  intros Hd Hv. induction Hd as [|[k0 v0] d H0 Hd IH]; simpl.
  - constructor; [exact Hv|constructor].
  - destruct (key_eqb k0 k); constructor; assumption.
Qed.

Lemma epoch_body_accuracy (p : Prepared) (n : nat) (s : LoopState) tr (s' : LoopState)
    (metrics : Dict) :
  epoch_body p n s = (tr, Done s') ->
  metric s = None ->
  shuffle (test_dataloader p) = false ->
  dict_get (KStr "metrics") (results s) = Some (PDict metrics) ->
  Forall (fun kv => accuracy_over (dataset (test_dataloader p)) (snd kv)) metrics ->
  exists metrics',
    dict_get (KStr "metrics") (results s') = Some (PDict metrics')
    /\ Forall (fun kv => accuracy_over (dataset (test_dataloader p)) (snd kv)) metrics'
    /\ metric s' = None.
Proof.
  unfold epoch_body. intros H Hm Hsh Hget Hall. rewrite Hm in H. script_inv.
  match goal with
  | Ht : test_phase _ _ None = (_, Done ?tm), Hc : compute _ = (_, Done ?c),
    Hs : set_metric _ _ _ = _ |- _ =>
      destruct tm as [t' m']; destruct c as [d m'']; simpl in *;
      apply test_phase_Done in Ht; [|exact Hsh];
      apply compute_Done in Hc; destruct Hc as (pp & rr & -> & -> & -> & _);
      apply set_metric_Done in Hs; destruct Hs as (ms & Hget' & ->);
      destruct Ht as [(Hnone & _)|(p0 & r0 & Hsome & Hlen & Hlab)]; [discriminate Hnone|]
  end.
  injection Hsome as <- <-. rewrite Hget in Hget'. injection Hget' as <-. subst s'. simpl.
  eexists. split; [apply dict_get_set_same|]. split; [|reflexivity].
  apply (Forall_dict_set (accuracy_over (dataset (test_dataloader p)))); [exact Hall|].
  exists pp, rr. repeat split; assumption.
Qed.

Lemma training_loop_accuracy (cfg : Config) (w : World) (argv : list string)
    tr (p : Prepared) tr' (s : LoopState) :
  prepare cfg w argv = (tr, Done p) ->
  training_loop cfg p (initial_state p) = (tr', Done s) ->
  exists metrics,
    dict_get (KStr "metrics") (results s) = Some (PDict metrics)
    /\ Forall (fun kv => accuracy_over (dataset (test_dataloader p)) (snd kv)) metrics.
Proof.
  intros Hp Hloop. apply prepare_Done in Hp. destruct Hp as (_ & _ & Hsh & _ & Hm & _).
  unfold training_loop in Hloop.
  assert (H : forall l s0 t s1 ms,
            for_each l (epoch_body p) s0 = (t, Done s1) ->
            metric s0 = None ->
            dict_get (KStr "metrics") (results s0) = Some (PDict ms) ->
            Forall (fun kv => accuracy_over (dataset (test_dataloader p)) (snd kv)) ms ->
            exists ms',
              dict_get (KStr "metrics") (results s1) = Some (PDict ms')
              /\ Forall (fun kv => accuracy_over (dataset (test_dataloader p)) (snd kv)) ms').
  { clear - Hsh. induction l as [|e l IH]; intros s0 t s1 ms H Hnone Hget Hall; simpl in H.
    - apply ret_Done in H. destruct H as [_ <-]. exists ms. split; assumption.
    - script_inv.
      destruct (epoch_body_accuracy _ _ _ _ _ _ Hrun Hnone Hsh Hget Hall)
        as (ms1 & Hget1 & Hall1 & Hnone1).
      eapply IH; eassumption. }
  eapply H; [exact Hloop|reflexivity|exact Hm|constructor].
Qed.

(** X8. In a run that reaches its end, the flat reference list handed to
    the confusion matrix is the labels column of the eval file, record by
    record in file order, and there is one prediction per record. *)
Theorem references_are_the_eval_labels (cfg : Config) (w : World) (argv : list string)
    tr (g : Globals) :
  main cfg w argv = (tr, Done g) ->
  exists d3,
    parquet w (input_path "eval" (nth 1 argv EmptyString)) = Some d3
    /\ map label_of (rows d3) = map Some (all_references g)
    /\ length (all_predictions g) = length (rows d3).
Proof.
  intros H. apply main_Done in H.
  destruct H as (tr1 & p & tr2 & s & tr3 & results' & tr4 & Hp & Hloop & Heval & Hrep & _).
  destruct (training_loop_Done _ _ _ _ _ _ _ Hp Hloop) as (Hnone & _).
  pose proof Hp as Hsh. apply prepare_Done in Hsh. destruct Hsh as (_ & _ & _ & Hsh & _).
  apply prepare_Done_files in Hp.
  destruct Hp as (_ & d1 & d2 & d3 & _ & _ & H3 & _ & _ & Hn & _ & Hlab & _).
  destruct (final_evaluation_Done _ _ _ _ _ _ Heval Hnone Hsh) as (_ & Hlen & Hsize & _).
  pose proof (final_evaluation_references _ _ _ _ _ _ Heval Hsh) as Hrefs.
  exists d3. split; [exact H3|]. split.
  - rewrite <- Hlab. exact Hrefs.
  - rewrite Hlen, Hsize, Hn. reflexivity.
Qed.

(** X9. In a run that reaches its end, the accuracy recorded for every
    epoch is the accuracy of one prediction per record of the test file
    against that file's labels in file order: the accumulator carries
    nothing over from one epoch to the next. *)
Theorem epoch_accuracy_is_over_the_test_file (cfg : Config) (w : World) (argv : list string)
    tr (g : Globals) :
  main cfg w argv = (tr, Done g) ->
  exists d2 metrics,
    parquet w (input_path "test" (nth 1 argv EmptyString)) = Some d2
    /\ dict_get (KStr "metrics") (final_results g) = Some (PDict metrics)
    /\ Forall (fun kv =>
                 exists preds refs,
                   map label_of (rows d2) = map Some refs
                   /\ length preds = length (rows d2)
                   /\ snd kv = PDict [(KStr "accuracy", PFloat (accuracy_score refs preds))])
              metrics.
Proof.
  intros H. apply main_Done in H.
  destruct H as (tr1 & p & tr2 & s & tr3 & results' & tr4 & Hp & Hloop & Heval & Hrep & _).
  destruct (training_loop_Done _ _ _ _ _ _ _ Hp Hloop) as (Hnone & _).
  destruct (training_loop_accuracy _ _ _ _ _ _ _ Hp Hloop) as (metrics & Hget & Hall).
  pose proof Hp as Hsh. apply prepare_Done in Hsh. destruct Hsh as (_ & _ & _ & Hsh & _).
  apply prepare_Done_files in Hp.
  destruct Hp as (_ & d1 & d2 & d3 & _ & H2 & _ & _ & Hn & _ & Hlab & _).
  destruct (final_evaluation_Done _ _ _ _ _ _ Heval Hnone Hsh) as (-> & _).
  destruct (report_Done _ _ _ _ _ _ _ _ Hrep) as (_ & _ & _ & Hres & _).
  exists d2, metrics. split; [exact H2|]. split.
  - rewrite Hres, !dict_get_set_other by discriminate. exact Hget.
  - eapply Forall_impl; [|exact Hall]. intros kv (preds & refs & Hl & Hlen & Hv).
    exists preds, refs. rewrite <- Hlab. split; [exact Hl|]. split; [|exact Hv].
    rewrite Hlen, <- Hn, <- (length_map label_of), Hl, length_map. reflexivity.
Qed.

(** ** Counting optimizer steps *)

Lemma optimizer_steps_app (a b : list Event) :
  optimizer_steps (a ++ b) = optimizer_steps a + optimizer_steps b.
Proof. unfold optimizer_steps. rewrite filter_app, length_app. reflexivity. Qed.

Lemma never_training_no_steps {A} (m : Script A) :
  never is_training m -> optimizer_steps (fst m) = 0.
Proof.
  intros H. unfold optimizer_steps.
  rewrite (filter_none is_training is_training (fst m) H); [reflexivity|].
  intros x Hx. exact Hx.
Qed.

Lemma for_each_steps {A S} (body : A -> S -> Script S) (k : nat) (l : list A) (s : S)
    tr (s' : S) :
  (forall x s t s', body x s = (t, Done s') -> optimizer_steps t = k) ->
  for_each l body s = (tr, Done s') ->
  optimizer_steps tr = k * length l.
Proof.
  intros Hbody. revert s tr. induction l as [|x l IH]; intros s tr H; simpl in H.
  - apply ret_Done in H. destruct H as [-> _]. simpl length. rewrite Nat.mul_0_r. reflexivity.
  - script_inv. subst tr. rewrite optimizer_steps_app, (Hbody _ _ _ _ Hrun), (IH _ _ H).
    simpl length. rewrite Nat.mul_succ_r. lia.
Qed.

Lemma test_phase_never_trains (dl : DataLoader) (t : Torch) (m : Metric) :
  never is_training (test_phase dl t m).
Proof.
  unfold test_phase, predict, print, index_batches.
  never_tac; first [apply never_fetch|apply never_add_batch].
Qed.

Lemma train_phase_steps (epoch : nat) (dl : DataLoader) (t : Torch) tr (t' : Torch) :
  train_phase epoch dl t = (tr, Done t') ->
  optimizer_steps tr = length (fst (index_batches dl t)).
Proof.
  unfold train_phase. destruct (index_batches dl t) as [batches t0]. simpl. intros H.
  match type of H with
  | for_each _ ?body _ = _ =>
      assert (Hbody : forall x s t s', body x s = (t, Done s') -> optimizer_steps t = 1)
  end.
  { clear. intros x s t s' Hb. simpl in Hb. script_inv.
    apply fetch_Done in Hrun. destruct Hrun as (-> & _). injection Hb as <- _.
    subst. reflexivity. }
  rewrite (for_each_steps _ 1 _ _ _ _ Hbody H). lia.
Qed.

Lemma epoch_body_steps (p : Prepared) (epoch : nat) (s : LoopState) tr (s' : LoopState) :
  epoch_body p epoch s = (tr, Done s') ->
  optimizer_steps tr = length (fst (index_batches (train_dataloader p) (torch s))).
Proof.
  unfold epoch_body. intros H. script_inv.
  apply train_phase_steps in Hrun.
  match goal with
  | Ht : test_phase ?dl ?t ?m = (?t1, _) |- _ =>
      pose proof (never_training_no_steps _ (test_phase_never_trains dl t m)) as Hz;
      rewrite Ht in Hz; simpl in Hz
  end.
  match goal with
  | Hc : compute ?m = (?t1, Done ?c) |- _ =>
      destruct c as [d m'']; apply compute_Done in Hc; destruct Hc as (? & ? & _ & _ & _ & ->)
  end.
  match goal with
  | Hs : set_metric _ _ _ = _ |- _ => unfold set_metric in Hs;
      destruct (dict_get (KStr "metrics") (results s)) as [[| | |ms]|]; try discriminate Hs;
      apply ret_Done in Hs; destruct Hs as [-> _]
  end.
  subst. rewrite !optimizer_steps_app, Hrun, Hz. simpl. unfold optimizer_steps. simpl. lia.
Qed.

(** X10. When the generator yields one index per record, a run that
    reaches its end has applied exactly epochs times the number of
    training batches optimizer steps, the number of batches being the
    training record count divided by the batch size, rounded up: the
    figure line 138 gives the schedule as its number of training steps. *)
Theorem optimizer_steps_of_a_run (cfg : Config) (w : World) (argv : list string)
    tr (g : Globals) :
  (forall t n, length (fst (randperm t n)) = n) ->
  0 < batch_size cfg ->
  main cfg w argv = (tr, Done g) ->
  exists d1,
    parquet w (input_path "train" (nth 1 argv EmptyString)) = Some d1
    /\ optimizer_steps tr
       = num_epochs cfg * ((length (rows d1) + batch_size cfg - 1) / batch_size cfg).
Proof.
  intros Hperm Hbs H. apply main_Done in H.
  destruct H as (tr1 & p & tr2 & s & tr3 & results' & tr4 & Hp & Hloop & Heval & Hrep & ->).
  pose proof (never_training_no_steps _ (prepare_never_trains cfg w argv)) as Z1.
  rewrite Hp in Z1. simpl in Z1.
  pose proof (final_evaluation_events p s) as N3. unfold never in N3. rewrite Heval in N3.
  pose proof (report_events cfg w p results' (all_predictions g) (all_references g)) as N4.
  unfold never in N4. rewrite Hrep in N4. simpl in N3, N4.
  pose proof Hp as Hsh. apply prepare_Done in Hsh. destruct Hsh as (_ & Hsh & _).
  apply prepare_Done_files in Hp.
  destruct Hp as (_ & d1 & d2 & d3 & H1 & _ & _ & Hn & _ & _ & _ & _ & Hb & _).
  exists d1. split; [exact H1|].
  rewrite !optimizer_steps_app, Z1.
  unfold optimizer_steps at 2 3.
  rewrite (filter_none is_training outside_evaluation tr3 N3)
    by (intros [] E; try discriminate E; reflexivity).
  rewrite (filter_none is_training outside_report tr4 N4)
    by (intros [] E; try discriminate E; reflexivity).
  simpl. rewrite !Nat.add_0_r. unfold training_loop in Hloop.
  assert (Hbody : forall e s0 t s1,
            epoch_body p e s0 = (t, Done s1) ->
            optimizer_steps t = (length (rows d1) + batch_size cfg - 1) / batch_size cfg).
  { intros e s0 t s1 He. rewrite (epoch_body_steps _ _ _ _ _ He).
    unfold index_batches, sampler. rewrite Hsh.
    specialize (Hperm (torch s0) (length (dataset (train_dataloader p)))).
    destruct (randperm (torch s0) (length (dataset (train_dataloader p)))) as [order t0].
    simpl in *. rewrite Hb, batch_sampler_length by exact Hbs. rewrite Hperm, Hn. reflexivity. }
  rewrite (for_each_steps _ _ _ _ _ _ Hbody Hloop), length_seq. lia.
Qed.

(** ** Where the script can leave through sys.exit *)

Lemma no_exit_ret {A} (a : A) : ~ ends_by_exit (ret a).
Proof. intros (st & H). discriminate H. Qed.

Lemma no_exit_raise {A} (e : Exn) : ~ ends_by_exit (@raise A e).
Proof. intros (st & H). discriminate H. Qed.

Lemma no_exit_lift {A} (e : Exn) (o : option A) : ~ ends_by_exit (lift e o).
Proof. destruct o; intros (st & H); discriminate H. Qed.

Lemma no_exit_emit (e : Event) : ~ ends_by_exit (emit e).
Proof. intros (st & H). discriminate H. Qed.

Lemma no_exit_bind {A B} (m : Script A) (f : A -> Script B) :
  ~ ends_by_exit m -> (forall a, ~ ends_by_exit (f a)) -> ~ ends_by_exit (bind m f).
Proof.
  unfold ends_by_exit, bind. intros Hm Hf (st & H). destruct m as [t [a|st'|e]]; simpl in *.
  - apply (Hf a). destruct (f a) as [t' o]. simpl in *. exists st. exact H.
  - apply Hm. exists st'. reflexivity.
  - discriminate H.
Qed.

Lemma no_exit_for_each {A S} (l : list A) (body : A -> S -> Script S) (s : S) :
  (forall x s, ~ ends_by_exit (body x s)) -> ~ ends_by_exit (for_each l body s).
Proof.
  intros Hbody. revert s. induction l as [|x l IH]; intros s; simpl.
  - apply no_exit_ret.
  - apply no_exit_bind; [apply Hbody|exact IH].
Qed.

Lemma no_exit_map_script {A B} (f : A -> Script B) (l : list A) :
  (forall x, ~ ends_by_exit (f x)) -> ~ ends_by_exit (map_script f l).
Proof.
  intros Hf. induction l as [|x l IH]; simpl.
  - apply no_exit_ret.
  - apply no_exit_bind; [apply Hf|]. intros y.
    apply no_exit_bind; [exact IH|]. intros ys. apply no_exit_ret.
Qed.

(** Discharges [~ ends_by_exit] goals by following the structure of the script. *)
Ltac no_exit_tac :=
  repeat first
    [ apply no_exit_ret
    | apply no_exit_raise
    | apply no_exit_lift
    | apply no_exit_emit
    | apply no_exit_bind; [|intros]
    | apply no_exit_for_each; intros
    | apply no_exit_map_script; intros
    | match goal with
      | |- ~ ends_by_exit (if ?c then _ else _) => destruct c
      | |- ~ ends_by_exit (match ?x with _ => _ end) => destruct x
      | |- ~ ends_by_exit (let (_, _) := ?x in _) => destruct x
      end ].

Lemma no_exit_after_prepare (cfg : Config) (w : World) (p : Prepared) :
  ~ ends_by_exit (s <- training_loop cfg p (initial_state p) ;;
                  e <- final_evaluation p s ;;
                  report cfg w p (fst (fst e)) (snd (fst e)) (snd e)).
Proof.
  unfold training_loop, epoch_body, train_phase, test_phase, final_evaluation, predict,
    set_metric, report, write, print, index_batches, fetch, add_batch, compute.
  no_exit_tac.
Qed.

(** X11. The process leaves through sys.exit exactly when the dataset
    identifier is omitted: with an identifier on the command line every
    run either reaches the end of the script (status 0) or dies of an
    uncaught exception (status 1). *)
Theorem exits_only_without_identifier (cfg : Config) (w : World) (argv : list string)
    tr (o : Outcome Globals) :
  main cfg w argv = (tr, o) ->
  ((exists st, o = Exit st) <-> length argv < 2)
  /\ (2 <= length argv ->
      (exists g, o = Done g /\ exit_status o = 0%Z)
      \/ (exists e, o = Raise e /\ exit_status o = 1%Z)).
Proof.
  intros H.
  assert (Hge : 2 <= length argv -> forall st, o <> Exit st).
  { intros Hargv st ->.
    assert (N : ~ ends_by_exit (main cfg w argv)).
    { unfold main. apply no_exit_bind; [|intros p; apply no_exit_after_prepare].
      unfold prepare, print, load_dataset, from_pretrained, column, dataset_map, tokenize.
      replace (length argv <? 2) with false by (symmetry; apply Nat.ltb_ge; exact Hargv).
      no_exit_tac. }
    apply N. exists st. rewrite H. reflexivity. }
  split; [split|].
  - intros (st & ->). destruct (Nat.lt_ge_cases (length argv) 2) as [Hlt|Hargv]; [exact Hlt|].
    exfalso. exact (Hge Hargv st eq_refl).
  - intros Hlt. unfold main, prepare in H. apply Nat.ltb_lt in Hlt. rewrite Hlt in H.
    simpl in H. injection H as _ <-. eexists. reflexivity.
  - intros Hargv. destruct o as [g|st|e].
    + left. exists g. split; reflexivity.
    + exfalso. exact (Hge Hargv st eq_refl).
    + right. exists e. split; reflexivity.
Qed.

(** ** Reading a timestamp back *)

Lemma length_append (a b : string) :
  String.length (a ++ b) = String.length a + String.length b.
Proof. induction a as [|c a IH]; simpl; [reflexivity|]. rewrite IH. reflexivity. Qed.

Lemma append_inj_length (a a' b b' : string) :
  String.length a = String.length a' ->
  (a ++ b)%string = (a' ++ b')%string -> a = a' /\ b = b'.
Proof.
  revert a'. induction a as [|c a IH]; intros [|c' a'] Hlen H; simpl in *; try discriminate.
  - split; [reflexivity|exact H].
  - injection H as -> H. injection Hlen as Hlen. destruct (IH a' Hlen H) as [-> ->].
    split; reflexivity.
Qed.

Lemma append_inv_tail (a a' b : string) : (a ++ b)%string = (a' ++ b)%string -> a = a'.
Proof.
  intros H. apply (append_inj_length a a' b b); [|exact H].
  apply (f_equal String.length) in H. rewrite !length_append in H. lia.
Qed.

Lemma string_of_nat_round_trip (n : nat) : nat_of_string (string_of_nat n) = Some n.
Proof.
  unfold nat_of_string, string_of_nat.
  assert (Hnil : Nat.to_uint n <> Decimal.Nil).
  { intros En. pose proof (DecimalNat.Unsigned.of_to n) as H. rewrite En in H.
    simpl in H. subst n. discriminate En. }
  rewrite NilZero.usu by exact Hnil. simpl.
  rewrite DecimalNat.Unsigned.of_to. reflexivity.
Qed.

Lemma string_of_nat_inj (a b : nat) : string_of_nat a = string_of_nat b -> a = b.
Proof.
  intros H. apply (f_equal nat_of_string) in H.
  rewrite !string_of_nat_round_trip in H. injection H as H. exact H.
Qed.

Lemma two_digits_round_trip (n : nat) : n < 100 -> nat_of_string (two_digits n) = Some n.
Proof.
  intros H. do 100 (destruct n as [|n]; [reflexivity|]). lia.
Qed.

Lemma two_digits_inj (a b : nat) :
  a < 100 -> b < 100 -> two_digits a = two_digits b -> a = b.
Proof.
  intros Ha Hb H. apply (f_equal nat_of_string) in H.
  rewrite !two_digits_round_trip in H by assumption. injection H as H. exact H.
Qed.

(** A date whose day, month, hour and minute have at most two digits. *)
Lemma strftime_inj (d d' : DateTime) :
  day d < 100 -> month d < 100 -> hour d < 100 -> minute d < 100 ->
  day d' < 100 -> month d' < 100 -> hour d' < 100 -> minute d' < 100 ->
  strftime d = strftime d' ->
  day d = day d' /\ month d = month d' /\ year d = year d'
  /\ hour d = hour d' /\ minute d = minute d'.
Proof.
  intros D M H Mi D' M' H' Mi' E. unfold strftime in E.
  pose proof (two_digits_length _ D) as LD. pose proof (two_digits_length _ D') as LD'.
  pose proof (two_digits_length _ M) as LM. pose proof (two_digits_length _ M') as LM'.
  pose proof (two_digits_length _ H) as LH. pose proof (two_digits_length _ H') as LH'.
  pose proof (two_digits_length _ Mi) as LMi. pose proof (two_digits_length _ Mi') as LMi'.
  apply append_inj_length in E; [|congruence]. destruct E as [ED E].
  apply (append_inj_length "-" "-") in E; [|reflexivity]. destruct E as [_ E].
  apply append_inj_length in E; [|congruence]. destruct E as [EM E].
  apply (append_inj_length "-" "-") in E; [|reflexivity]. destruct E as [_ E].
  assert (LY : String.length (string_of_nat (year d)) = String.length (string_of_nat (year d'))).
  { pose proof (f_equal String.length E) as L. rewrite !length_append in L.
    simpl String.length in L. lia. }
  apply append_inj_length in E; [|exact LY]. destruct E as [EY E].
  apply (append_inj_length "-" "-") in E; [|reflexivity]. destruct E as [_ E].
  apply append_inj_length in E; [|congruence]. destruct E as [EH E].
  apply (append_inj_length "-" "-") in E; [|reflexivity]. destruct E as [_ EMi].
  repeat split.
  - apply two_digits_inj; assumption.
  - apply two_digits_inj; assumption.
  - apply string_of_nat_inj; assumption.
  - apply two_digits_inj; assumption.
  - apply two_digits_inj; assumption.
Qed.

(** X12. For two moments given by calendar fields of at most two digits
    (and any year), two runs on the same dataset identifier and epoch count
    get the same summary file name exactly when the moments agree in day,
    month, year, hour and minute: a summary can only be overwritten by a
    run reporting within the same minute. *)
Theorem summary_names_collide_only_within_a_minute (cfg : Config) (id : string)
    (d d' : DateTime) :
  day d < 100 -> month d < 100 -> hour d < 100 -> minute d < 100 ->
  day d' < 100 -> month d' < 100 -> hour d' < 100 -> minute d' < 100 ->
  (summary_path cfg (strftime d) id = summary_path cfg (strftime d') id
   <-> day d = day d' /\ month d = month d' /\ year d = year d'
       /\ hour d = hour d' /\ minute d = minute d').
Proof.
  intros D M H Mi D' M' H' Mi'. split.
  - intros E. unfold summary_path in E.
    apply (append_inj_length "results/" "results/") in E; [|reflexivity].
    destruct E as [_ E]. apply append_inv_tail in E.
    apply strftime_inj; assumption.
  - intros (ED & EM & EY & EH & EMi). unfold summary_path, strftime.
    rewrite ED, EM, EY, EH, EMi. reflexivity.
Qed.

(** ** Partitions without the expected columns *)

Lemma dataset_map_Done_columns (cfg : Config) (ds : Dataset) tr (ds' : Dataset) :
  dataset_map cfg ["texto"; "nota"] ds = (tr, Done ds') ->
  has_column ds "texto" = true /\ has_column ds "nota" = true.
Proof.
  unfold dataset_map. cbn [forallb].
  destruct (has_column ds "texto"); [|discriminate].
  destruct (has_column ds "nota"); [|discriminate].
  intros _. split; reflexivity.
Qed.

Lemma prepare_Done_columns (cfg : Config) (w : World) (argv : list string) tr (p : Prepared)
    (part : string) (d : Dataset) :
  prepare cfg w argv = (tr, Done p) ->
  In part ["train"; "test"; "eval"] ->
  parquet w (input_path part (nth 1 argv EmptyString)) = Some d ->
  has_column d "texto" = true /\ has_column d "nota" = true.
Proof.
  unfold prepare. destruct (length argv <? 2).
  - intros H. script_inv.
  - intros H Hpart Hd. script_inv.
    repeat match goal with
      | H : load_dataset _ _ = (_, Done _) |- _ =>
          apply load_dataset_Done in H; destruct H as [_ H]
      | H : dataset_map _ _ _ = (_, Done _) |- _ =>
          apply dataset_map_Done_columns in H
      end.
    simpl in Hpart. destruct Hpart as [<-|[<-|[<-|[]]]];
      match goal with
      | H : parquet w ?path = Some ?d0 |- _ =>
          match type of Hd with
          | parquet w path = _ => rewrite H in Hd; injection Hd as <-; assumption
          end
      end.
Qed.

Lemma prepare_no_exit (cfg : Config) (w : World) (argv : list string) :
  2 <= length argv -> ~ ends_by_exit (prepare cfg w argv).
Proof.
  intros Hargv.
  unfold prepare, print, load_dataset, from_pretrained, column, dataset_map, tokenize.
  replace (length argv <? 2) with false by (symmetry; apply Nat.ltb_ge; exact Hargv).
  no_exit_tac.
Qed.

(** X13. When an input file of the dataset identifier lacks the texto or
    the nota column, the run ends with an exception during preparation:
    all that has happened by then are hub loads, file reads and prints, so
    no optimizer step was taken and no file was written. *)
Theorem missing_column_fails_in_preparation (cfg : Config) (w : World) (argv : list string)
    tr (o : Outcome Globals) :
  main cfg w argv = (tr, o) ->
  2 <= length argv ->
  (exists part d,
     In part ["train"; "test"; "eval"]
     /\ parquet w (input_path part (nth 1 argv EmptyString)) = Some d
     /\ (has_column d "texto" = false \/ has_column d "nota" = false)) ->
  (exists e, o = Raise e)
  /\ Forall (fun ev => outside_prepare ev = false) tr
  /\ optimizer_steps tr = 0
  /\ filter is_write tr = [].
Proof.
  intros H Hargv (part & d & Hpart & Hd & Hcol).
  pose proof (prepare_events cfg w argv) as N. unfold never in N.
  unfold main in H. destruct (prepare cfg w argv) as [t1 [p|st|e]] eqn:Ep.
  - exfalso. destruct (prepare_Done_columns _ _ _ _ _ _ _ Ep Hpart Hd) as [H1 H2].
    destruct Hcol; congruence.
  - exfalso. apply (prepare_no_exit cfg w argv Hargv). exists st. rewrite Ep. reflexivity.
  - simpl in H, N. injection H as <- <-. split; [exists e; reflexivity|].
    split; [exact N|]. split.
    + unfold optimizer_steps. rewrite (filter_none is_training outside_prepare t1 N);
        [reflexivity|]. intros [] E; try discriminate E; reflexivity.
    + apply (filter_none is_write outside_prepare t1 N).
      intros [] E; try discriminate E; reflexivity.
Qed.

(** ** What the tokenization leaves in a record *)

Lemma dataset_map_rows (cfg : Config) (ds : Dataset) tr (ds' : Dataset) :
  dataset_map cfg ["texto"; "nota"] ds = (tr, Done ds') ->
  Forall2 (fun r r' =>
             exists text,
               get "texto" r = Some (VText text)
               /\ r' = update (drop ["texto"; "nota"] r) (tokenizer (max_length cfg) text))
          (rows ds) (rows ds').
Proof.
  unfold dataset_map. destruct (forallb (has_column ds) ["texto"; "nota"]); [|discriminate].
  destruct (rows ds) as [|r0 rs] eqn:Erows.
  - intros H. apply ret_Done in H. destruct H as [_ <-]. constructor.
  - intros H. script_inv. subst ds'. simpl. apply map_script_Done in Hrun.
    eapply Forall2_impl; [|exact Hrun]. clear. intros r r' (t & H). simpl in H.
    script_inv. subst r'. unfold tokenize in Hrun.
    destruct (get "texto" r) as [[text| |]|] eqn:Etext; try discriminate.
    apply ret_Done in Hrun. destruct Hrun as [_ <-]. exists text. split; reflexivity.
Qed.

(** X14. After the transform every record holds input_ids that begin with
    the start token and end with the end token, and an attention_mask of
    as many ones; a text whose ids fit below the maximum length is kept
    whole. *)
Theorem tokenized_records_are_framed (cfg : Config) (ds : Dataset) tr (ds' : Dataset) :
  dataset_map cfg ["texto"; "nota"] ds = (tr, Done ds') ->
  Forall2
    (fun r r' =>
       exists text ids,
         get "texto" r = Some (VText text)
         /\ get "input_ids" r' = Some (VInts (bos_token_id :: ids ++ [eos_token_id]))
         /\ get "attention_mask" r' = Some (VInts (repeat 1%Z (length ids + 2)))
         /\ ids = firstn (max_length cfg - 2) (bpe text)
         /\ (length (bpe text) <= max_length cfg - 2 -> ids = bpe text))
    (rows ds) (rows ds').
Proof.
  intros H. apply dataset_map_rows in H. eapply Forall2_impl; [|exact H]. clear.
  intros r r' (text & Htext & ->).
  exists text, (firstn (max_length cfg - 2) (bpe text)).
  unfold update, tokenizer. simpl fold_left.
  split; [exact Htext|]. split; [|split; [|split]].
  - rewrite get_set_other, get_set_same by discriminate. reflexivity.
  - rewrite get_set_same. reflexivity.
  - reflexivity.
  - apply firstn_all2.
Qed.

(** ** Runs that reach the end *)




Section Completion.
Hypothesis randperm_in_range : forall t n, Forall (fun i => i < n) (fst (randperm t n)).
Hypothesis train_step_total : forall t b, exists t', train_step t b = Some t'.
Hypothesis logits_shape :
  forall t b, exists scores, logits t b = Some scores /\ length scores = length b.



End Completion.

(** ** The keys of the summary *)

Lemma dict_get_Some_In (k : Key) (v : PyVal) (d : Dict) :
  dict_get k d = Some v -> In k (map fst d).
Proof.
  induction d as [|[k0 v0] d IH]; simpl; [discriminate|].
  destruct (key_eqb_spec k0 k) as [->|_]; [intros _; left; reflexivity|].
  intros H. right. apply IH. exact H.
Qed.

Lemma dict_set_keys_present (k : Key) (v : PyVal) (d : Dict) :
  In k (map fst d) -> map fst (dict_set k v d) = map fst d.
Proof.
  induction d as [|[k0 v0] d IH]; simpl; [intros []|].
  destruct (key_eqb_spec k0 k) as [->|Hne]; [reflexivity|].
  intros [E|H]; [contradiction|]. simpl. f_equal. apply IH. exact H.
Qed.

Lemma dict_set_keys_fresh (k : Key) (v : PyVal) (d : Dict) :
  ~ In k (map fst d) -> map fst (dict_set k v d) = map fst d ++ [k].
Proof. intros H. rewrite dict_set_new by exact H. rewrite map_app. reflexivity. Qed.

Lemma epoch_body_keys (p : Prepared) (n : nat) (s : LoopState) tr (s' : LoopState) :
  epoch_body p n s = (tr, Done s') -> map fst (results s') = map fst (results s).
Proof.
  unfold epoch_body. intros H. script_inv.
  match goal with
  | Hs : set_metric _ _ _ = _ |- _ =>
      apply set_metric_Done in Hs; destruct Hs as (ms & Hget & ->)
  end.
  subst s'. simpl. apply dict_set_keys_present. eapply dict_get_Some_In. exact Hget.
Qed.

Lemma training_loop_keys (cfg : Config) (p : Prepared) (s0 : LoopState) tr (s : LoopState) :
  training_loop cfg p s0 = (tr, Done s) -> map fst (results s) = map fst (results s0).
Proof.
  unfold training_loop. intros H.
  pose (I := fun (_ : list nat) (s1 : LoopState) => map fst (results s1) = map fst (results s0)).
  apply (for_each_Done (epoch_body p) I) with (seen := []) (l := seq 0 (num_epochs cfg))
    (s := s0) (tr := tr).
  - intros seen x s1 t s2 HI Hb. unfold I in *. rewrite <- HI. eapply epoch_body_keys. exact Hb.
  - reflexivity.
  - exact H.
Qed.

(** X16. The summary of a run that reaches its end has exactly fourteen
    keys, in this order: the eleven the dict is created with, then
    validation_metric, date and processing_time; the loop's updates of the
    metrics record move nothing. *)
Theorem summary_keys_in_order (cfg : Config) (w : World) (argv : list string)
    tr (g : Globals) :
  main cfg w argv = (tr, Done g) ->
  map fst (final_results g)
  = [KStr "batch_size"; KStr "model"; KStr "epochs"; KStr "metrics"; KStr "conjunto";
     KStr "obs"; KStr "padding_side"; KStr "train_size"; KStr "test_size";
     KStr "eval_size"; KStr "n_labels"; KStr "validation_metric"; KStr "date";
     KStr "processing_time"].
Proof.
  intros H. apply main_Done in H.
  destruct H as (tr1 & p & tr2 & s & tr3 & results' & tr4 & Hp & Hloop & Heval & Hrep & _).
  destruct (training_loop_Done _ _ _ _ _ _ _ Hp Hloop) as (Hnone & _).
  pose proof (training_loop_keys _ _ _ _ _ Hloop) as Hkeys. simpl in Hkeys.
  pose proof Hp as Hsh. apply prepare_Done in Hsh. destruct Hsh as (_ & _ & _ & Hsh & _).
  apply prepare_Done_files in Hp.
  destruct Hp as (_ & d1 & d2 & d3 & _ & _ & _ & _ & _ & _ & _ & _ & _ & _ & _ & _ & Hinit & _).
  rewrite Hinit in Hkeys. simpl in Hkeys.
  destruct (final_evaluation_Done _ _ _ _ _ _ Heval Hnone Hsh) as (-> & _).
  destruct (report_Done _ _ _ _ _ _ _ _ Hrep) as (_ & _ & _ & -> & _).
  set (v1 := PDict [(KStr "accuracy",
                     PFloat (accuracy_score (all_references g) (all_predictions g)))]).
  set (v2 := PStr (strftime (now w))).
  set (v3 := PFloat ((clock_end w - clock_start w) / 60)).
  assert (K1 : map fst (dict_set (KStr "validation_metric") v1 (results s))
               = map fst (results s) ++ [KStr "validation_metric"]).
  { apply dict_set_keys_fresh. rewrite Hkeys. simpl. intros Hin.
    repeat (destruct Hin as [Hin|Hin]; [discriminate Hin|]). exact Hin. }
  assert (K2 : map fst (dict_set (KStr "date") v2
                          (dict_set (KStr "validation_metric") v1 (results s)))
               = (map fst (results s) ++ [KStr "validation_metric"]) ++ [KStr "date"]).
  { rewrite dict_set_keys_fresh; rewrite K1; [reflexivity|]. rewrite Hkeys. simpl. intros Hin.
    repeat (destruct Hin as [Hin|Hin]; [discriminate Hin|]). exact Hin. }
  rewrite dict_set_keys_fresh; rewrite K2, Hkeys; [reflexivity|]. simpl. intros Hin.
  repeat (destruct Hin as [Hin|Hin]; [discriminate Hin|]). exact Hin.
Qed.

End Pipeline.

(** * The script on the small instance *)

Local Abbreviation toy_main :=
  (main toy_bpe ToyTorch toy_assembled toy_randperm toy_train_step toy_logits toy_float_repr).
Local Abbreviation toy_prepare := (prepare toy_bpe).
Local Abbreviation toy_training_loop :=
  (training_loop ToyTorch toy_randperm toy_train_step toy_logits).
Local Abbreviation toy_initial_state := (initial_state ToyTorch toy_assembled).

Lemma metrics_after_training_loop_witness :
  exists tr p tr' s,
    toy_prepare config toy_world ["run.py"; "7"] = (tr, Done p)
    /\ toy_training_loop config p (toy_initial_state p) = (tr', Done s)
    /\ exists metrics,
         dict_get (KStr "metrics") (results ToyTorch s) = Some (PDict metrics)
         /\ length metrics = 5
         /\ map fst metrics = map (fun e => KInt (Z.of_nat e)) (seq 0 5)
         /\ Forall (fun kv => exists a, snd kv = PDict [(KStr "accuracy", PFloat a)]
                                        /\ (0 <= a <= 1)%Q) metrics.
Proof.
  do 4 eexists. split; [vm_compute; reflexivity|]. split; [vm_compute; reflexivity|].
  eapply (metrics_after_training_loop toy_bpe ToyTorch toy_assembled toy_randperm
            toy_train_step toy_logits config toy_world ["run.py"; "7"]);
    vm_compute; reflexivity.
Defined.

Lemma missing_identifier_usage_and_exit_witness :
  exists tr o,
    toy_main config toy_world ["run.py"] = (tr, o)
    /\ tr = [Print (Text usage)]
    /\ o = Exit 0%Z
    /\ exit_status o = 0%Z
    /\ Forall (fun e => is_file_event e = false) tr.
Proof.
  apply (missing_identifier_usage_and_exit toy_bpe ToyTorch toy_assembled toy_randperm
           toy_train_step toy_logits toy_float_repr config toy_world ["run.py"]).
  simpl. lia.
Defined.

(** C3 as stated fails: called with the script name alone, the process
    leaves with exit status 0, not with a nonzero one. *)
Lemma missing_identifier_exit_status_is_zero :
  exit_status (snd (toy_main config toy_world ["run.py"])) = 0%Z.
Proof. reflexivity. Qed.

Lemma confusion_matrix_counts_witness :
  exists m,
    confusion_matrix [2; 2; 2]%Z [2; 1; 2]%Z = Some m
    /\ cell m 1 0 = count_records 2 1 [2; 2; 2]%Z [2; 1; 2]%Z
    /\ total m = 3%Z
    /\ row_sum m 1 = count_true 2 [2; 2; 2]%Z.
Proof.
  destruct (confusion_matrix_counts [2; 2; 2]%Z [2; 1; 2]%Z eq_refl)
    as (m & Hm & Hcell & Htotal & Hrow & _).
  exists m. split; [exact Hm|].
  assert (Hlen : length m = 2).
  { vm_compute in Hm. injection Hm as <-. reflexivity. }
  split; [|split; [exact Htotal|]].
  - apply (Hcell 1 0); rewrite Hlen; lia.
  - apply (Hrow 1); rewrite Hlen; lia.
Defined.

(** C2 as stated fails: with one record of true and predicted label 3 the
    matrix is [[1]]; its entry (0, 0) is 1 although no record has true
    label 0 and predicted label 0, and its row 0 sums to 1 although no
    record has true label 0. *)
Lemma confusion_matrix_index_is_not_label :
  confusion_matrix [3%Z] [3%Z] = Some [[1%Z]]
  /\ cell [[1%Z]] 0 0 <> count_records 0 0 [3%Z] [3%Z]
  /\ row_sum [[1%Z]] 0 <> count_true 0 [3%Z].
Proof. split; [reflexivity|split; discriminate]. Qed.

Lemma confusion_matrix_dimension_witness :
  exists m,
    confusion_matrix [2; 2; 2]%Z [2; 1; 2]%Z = Some m
    /\ length m = 2
    /\ length m < 33.
Proof.
  destruct (confusion_matrix_dimension [2; 2; 2]%Z [2; 1; 2]%Z 33 eq_refl)
    as (m & Hm & Hdim & _ & Hsmall).
  exists m. split; [exact Hm|]. split; [exact Hdim|].
  apply Hsmall.
  - simpl. intros y Hy. lia.
  - exists 0%Z. split; [lia|]. simpl. lia.
Defined.

Lemma confusion_matrix_order_independent_witness :
  confusion_matrix (map (fun k => nth k [2; 2; 1]%Z 0%Z) [1; 2; 0])
                   (map (fun k => nth k [2; 1; 1]%Z 0%Z) [1; 2; 0])
  = confusion_matrix [2; 2; 1]%Z [2; 1; 1]%Z
  /\ confusion_matrix (rev [2; 2; 1]%Z) (rev [2; 1; 1]%Z)
     = confusion_matrix [2; 2; 1]%Z [2; 1; 1]%Z.
Proof.
  apply (confusion_matrix_order_independent [2; 2; 1]%Z [2; 1; 1]%Z [1; 2; 0]).
  - reflexivity.
  - simpl. apply Permutation_sym, Permutation_cons_app with (l1 := [1; 2]) (l2 := []).
    reflexivity.
Defined.

Lemma dataset_map_drops_texto_nota_witness :
  exists tr ds',
    dataset_map toy_bpe config ["texto"; "nota"] (toy_table [toy_row "bc" 400 2]) = (tr, Done ds')
    /\ Forall2
         (fun r r' =>
            get "texto" r' = None
            /\ get "nota" r' = None
            /\ (exists text,
                  get "texto" r = Some (VText text)
                  /\ get "input_ids" r'
                     = Some (VInts (bos_token_id :: firstn (512 - 2) (toy_bpe text)
                                      ++ [eos_token_id]))
                  /\ (2 <= 512 ->
                      length (bos_token_id :: firstn (512 - 2) (toy_bpe text)
                                ++ [eos_token_id]) <= 512))
            /\ (forall k, ~ In k ["texto"; "nota"; "input_ids"; "attention_mask"] ->
                  get k r' = get k r))
         [toy_row "bc" 400 2] (rows ds').
Proof.
  do 2 eexists. split; [vm_compute; reflexivity|].
  apply (dataset_map_drops_texto_nota toy_bpe config (toy_table [toy_row "bc" 400 2]) []).
  vm_compute. reflexivity.
Defined.

(** C4 as stated fails: a record with the columns texto, nota and labels
    keeps its labels column, which no tokenizer call produced. *)
Lemma dataset_map_keeps_labels :
  exists r',
    dataset_map toy_bpe config ["texto"; "nota"] (toy_table [toy_row "bc" 400 2])
    = ([], Done {| column_names := ["labels"; "input_ids"; "attention_mask"]; rows := [r'] |})
    /\ get "labels" r' = Some (VInt 2)
    /\ only_tokenizer_fields r' = false.
Proof. eexists. split; [vm_compute; reflexivity|]. split; reflexivity. Qed.

Lemma validation_accuracy_is_trace_ratio_witness :
  exists tr g,
    toy_main config toy_world ["run.py"; "7"] = (tr, Done g)
    /\ exists a n,
         dict_get (KStr "validation_metric") (final_results g)
         = Some (PDict [(KStr "accuracy", PFloat a)])
         /\ dict_get (KStr "eval_size") (final_results g) = Some (PInt (Z.of_nat n))
         /\ n = length (all_references g)
         /\ length (all_predictions g) = n
         /\ confusion_matrix (all_references g) (all_predictions g) = Some (cm g)
         /\ 0 < n
         /\ a = (trace (cm g) # Pos.of_nat n)
         /\ (a == inject_Z (trace (cm g)) / inject_Z (Z.of_nat n))%Q.
Proof.
  do 2 eexists. split; [vm_compute; reflexivity|].
  eapply (validation_accuracy_is_trace_ratio toy_bpe ToyTorch toy_assembled toy_randperm
            toy_train_step toy_logits toy_float_repr config toy_world ["run.py"; "7"]).
  vm_compute. reflexivity.
Defined.

Lemma failure_trains_nothing_and_writes_no_summary_witness :
  exists tr e,
    toy_main config toy_world_without_eval ["run.py"; "7"] = (tr, Raise e)
    /\ Forall (fun ev => is_training ev = false) tr
    /\ Forall (fun ev => is_summary_write ev = false) tr.
Proof.
  destruct (toy_main config toy_world_without_eval ["run.py"; "7"]) as [tr o] eqn:E.
  destruct (failure_trains_nothing_and_writes_no_summary toy_bpe ToyTorch toy_assembled
              toy_randperm toy_train_step toy_logits toy_float_repr config
              toy_world_without_eval ["run.py"; "7"] tr o E) as [Hmissing Hraise].
  destruct Hmissing as [(e & ->) Hquiet].
  - simpl. lia.
  - exists "eval". split; [simpl; auto|reflexivity].
  - exists tr, e. split; [reflexivity|]. split; [exact Hquiet|].
    apply (Hraise e). reflexivity.
Defined.



Lemma summary_sizes_count_file_records_witness :
  exists tr g,
    toy_main config toy_world ["run.py"; "7"] = (tr, Done g)
    /\ dict_get (KStr "train_size") (final_results g) = Some (PInt 3)
    /\ dict_get (KStr "test_size") (final_results g) = Some (PInt 2)
    /\ dict_get (KStr "eval_size") (final_results g) = Some (PInt 3).
Proof.
  destruct (toy_main config toy_world ["run.py"; "7"]) as [tr [g|st|e]] eqn:E;
    try (vm_compute in E; discriminate E).
  destruct (summary_sizes_count_file_records toy_bpe ToyTorch toy_assembled toy_randperm
              toy_train_step toy_logits toy_float_repr config toy_world ["run.py"; "7"] tr g E)
    as (d1 & d2 & d3 & H1 & H2 & H3 & S1 & S2 & S3).
  vm_compute in H1, H2, H3. injection H1 as <-. injection H2 as <-. injection H3 as <-.
  exists tr, g. repeat split; assumption.
Defined.

Lemma summary_carries_arguments_and_configuration_witness :
  exists tr g,
    toy_main config toy_world ["run.py"; "7"; "first try"] = (tr, Done g)
    /\ dict_get (KStr "conjunto") (final_results g) = Some (PStr "7")
    /\ dict_get (KStr "obs") (final_results g) = Some (PStr "first try")
    /\ dict_get (KStr "epochs") (final_results g) = Some (PInt 5).
Proof.
  destruct (toy_main config toy_world ["run.py"; "7"; "first try"]) as [tr [g|st|e]] eqn:E;
    try (vm_compute in E; discriminate E).
  destruct (summary_carries_arguments_and_configuration toy_bpe ToyTorch toy_assembled
              toy_randperm toy_train_step toy_logits toy_float_repr config toy_world
              ["run.py"; "7"; "first try"] tr g E)
    as (Hid & Hobs & _ & _ & Hep & _).
  exists tr, g. repeat split; assumption.
Defined.


Lemma files_read_and_written_witness :
  exists tr g,
    toy_main config toy_world ["run.py"; "7"] = (tr, Done g)
    /\ filter is_read tr
       = [ReadFile "preprocessing/train_conjunto_7_output.parquet";
          ReadFile "preprocessing/test_conjunto_7_output.parquet";
          ReadFile "preprocessing/eval_conjunto_7_output.parquet"]
    /\ filter is_write tr
       = [WriteFile "results/confusion_matrix_7_5_epochs.csv" (Csv (to_csv (cm g)));
          WriteFile "results/confusion_matrix_7_5_epochs.png" (Png "Confusion Matrix" (cm g));
          WriteFile "results/07-03-2024-09-05-conjunto7-5-epochs.json"
            (Json (json_dump toy_float_repr (PDict (final_results g)) 4))].
Proof.
  destruct (toy_main config toy_world ["run.py"; "7"]) as [tr [g|st|e]] eqn:E;
    try (vm_compute in E; discriminate E).
  destruct (files_read_and_written toy_bpe ToyTorch toy_assembled toy_randperm
              toy_train_step toy_logits toy_float_repr config toy_world ["run.py"; "7"] tr g E)
    as (Hread & Hwrite).
  exists tr, g. split; [reflexivity|]. split; [exact Hread|exact Hwrite].
Defined.

Lemma batches_are_full_except_the_last_witness :
  let ds := toy_table (map (fun k => toy_row "a" 0 (Z.of_nat k)) (seq 0 12)) in
  let batches := fst (index_batches ToyTorch toy_randperm (make_loader config ds false) (0, 0)) in
  batches = [[0; 1; 2; 3; 4]; [5; 6; 7; 8; 9]; [10; 11]]
  /\ Forall (fun b => 0 < length b <= 5) batches
  /\ length batches = (12 + 5 - 1) / 5.
Proof.
  intros ds batches.
  destruct (batches_are_full_except_the_last ToyTorch toy_randperm config ds false (0, 0))
    as (_ & Hsizes & _ & Hcount).
  - simpl. lia.
  - split; [reflexivity|]. split; [exact Hsizes|]. apply Hcount. reflexivity.
Defined.

Lemma collate_pads_to_the_longest_witness :
  let examples :=
    [[("input_ids", VInts [0; 97; 2]%Z); ("attention_mask", VInts [1; 1; 1]%Z);
      ("labels", VInt 1)];
     [("input_ids", VInts [0; 98; 99; 2]%Z); ("attention_mask", VInts [1; 1; 1; 1]%Z);
      ("labels", VInt 2)]] in
  collate_fn examples
  = [[("input_ids", VInts [0; 97; 2; 1]%Z); ("attention_mask", VInts [1; 1; 1; 0]%Z);
      ("labels", VInt 1)];
     [("input_ids", VInts [0; 98; 99; 2]%Z); ("attention_mask", VInts [1; 1; 1; 1]%Z);
      ("labels", VInt 2)]]
  /\ exists r, In r examples /\ input_length r = 4.
Proof.
  intros examples. split; [reflexivity|].
  destruct (collate_pads_to_the_longest examples) as (_ & H).
  apply H. discriminate.
Defined.

Lemma argmax_is_first_maximum_witness :
  argmax [1 # 2; 3; 3; 2]%Q = 1%Z
  /\ (0 <= argmax [1 # 2; 3; 3; 2]%Q < 4)%Z.
Proof.
  split; [reflexivity|].
  destruct (argmax_is_first_maximum [1 # 2; 3; 3; 2]%Q) as (H & _).
  - discriminate.
  - exact H.
Defined.

Lemma references_are_the_eval_labels_witness :
  exists tr g,
    toy_main config toy_world ["run.py"; "7"] = (tr, Done g)
    /\ map label_of toy_rows_eval = map Some (all_references g)
    /\ length (all_predictions g) = 3.
Proof.
  destruct (toy_main config toy_world ["run.py"; "7"]) as [tr [g|st|e]] eqn:E;
    try (vm_compute in E; discriminate E).
  destruct (references_are_the_eval_labels toy_bpe ToyTorch toy_assembled toy_randperm
              toy_train_step toy_logits toy_float_repr config toy_world ["run.py"; "7"] tr g E)
    as (d3 & H3 & Hrefs & Hlen).
  vm_compute in H3. injection H3 as <-.
  exists tr, g. split; [reflexivity|]. split; [exact Hrefs|exact Hlen].
Defined.

Lemma epoch_accuracy_is_over_the_test_file_witness :
  exists tr g metrics,
    toy_main config toy_world ["run.py"; "7"] = (tr, Done g)
    /\ dict_get (KStr "metrics") (final_results g) = Some (PDict metrics)
    /\ Forall (fun kv =>
                 exists preds refs,
                   [Some 2%Z; Some 1%Z] = map Some refs
                   /\ length preds = 2
                   /\ snd kv = PDict [(KStr "accuracy", PFloat (accuracy_score refs preds))])
              metrics.
Proof.
  destruct (toy_main config toy_world ["run.py"; "7"]) as [tr [g|st|e]] eqn:E;
    try (vm_compute in E; discriminate E).
  destruct (epoch_accuracy_is_over_the_test_file toy_bpe ToyTorch toy_assembled toy_randperm
              toy_train_step toy_logits toy_float_repr config toy_world ["run.py"; "7"] tr g E)
    as (d2 & metrics & H2 & Hget & Hall).
  vm_compute in H2. injection H2 as <-.
  exists tr, g, metrics. split; [reflexivity|]. split; [exact Hget|exact Hall].
Defined.

Lemma toy_randperm_length (t : ToyTorch) (n : nat) : length (fst (toy_randperm t n)) = n.
Proof.
  unfold toy_randperm, rotate. simpl fst.
  rewrite length_app, length_skipn, length_firstn, length_seq. lia.
Qed.

Lemma optimizer_steps_of_a_run_witness :
  exists tr g,
    toy_main config toy_world ["run.py"; "7"] = (tr, Done g)
    /\ optimizer_steps tr = 5 * ((3 + 5 - 1) / 5).
Proof.
  destruct (toy_main config toy_world ["run.py"; "7"]) as [tr [g|st|e]] eqn:E;
    try (vm_compute in E; discriminate E).
  destruct (optimizer_steps_of_a_run toy_bpe ToyTorch toy_assembled toy_randperm
              toy_train_step toy_logits toy_float_repr config toy_world ["run.py"; "7"] tr g
              toy_randperm_length) as (d1 & H1 & Hsteps).
  - simpl. lia.
  - exact E.
  - vm_compute in H1. injection H1 as <-. exists tr, g. split; [reflexivity|exact Hsteps].
Defined.

Lemma exits_only_without_identifier_witness :
  (exists tr st, toy_main config toy_world ["run.py"] = (tr, Exit st))
  /\ (exists tr e, toy_main config toy_world_without_eval ["run.py"; "7"] = (tr, Raise e)
                   /\ exit_status (@Raise (Globals) e) = 1%Z).
Proof.
  split.
  - destruct (toy_main config toy_world ["run.py"]) as [tr o] eqn:E.
    destruct (exits_only_without_identifier toy_bpe ToyTorch toy_assembled toy_randperm
                toy_train_step toy_logits toy_float_repr config toy_world ["run.py"] tr o E)
      as ((_ & Hexit) & _).
    destruct Hexit as (st & ->); [simpl; lia|]. exists tr, st. reflexivity.
  - destruct (toy_main config toy_world_without_eval ["run.py"; "7"]) as [tr o] eqn:E.
    destruct (exits_only_without_identifier toy_bpe ToyTorch toy_assembled toy_randperm
                toy_train_step toy_logits toy_float_repr config toy_world_without_eval
                ["run.py"; "7"] tr o E) as (_ & Hends).
    destruct Hends as [(g & -> & _)|(e & -> & Hst)]; [simpl; lia| |].
    + vm_compute in E. discriminate E.
    + exists tr, e. split; [reflexivity|exact Hst].
Defined.

Lemma summary_names_collide_only_within_a_minute_witness :
  summary_path config
    (strftime {| year := 2024; month := 3; day := 7; hour := 9; minute := 5; second := 42 |}) "7"
  <> summary_path config
       (strftime {| year := 2024; month := 3; day := 7; hour := 9; minute := 6; second := 1 |}) "7".
Proof.
  intros E.
  apply (summary_names_collide_only_within_a_minute config "7"
           {| year := 2024; month := 3; day := 7; hour := 9; minute := 5; second := 42 |}
           {| year := 2024; month := 3; day := 7; hour := 9; minute := 6; second := 1 |})
    in E; simpl; try lia.
  destruct E as (_ & _ & _ & _ & E). simpl in E. discriminate E.
Defined.

(** The same surroundings with a test file that has no nota column. *)
Lemma missing_column_fails_in_preparation_witness :
  let w := {| hub := hub toy_world;
              parquet := fun path =>
                if String.eqb path "preprocessing/test_conjunto_7_output.parquet"
                then Some {| column_names := ["texto"; "labels"];
                             rows := [[("texto", VText "b"); ("labels", VInt 2)]] |}
                else toy_parquet path;
              writable := writable toy_world;
              clock_start := clock_start toy_world;
              clock_end := clock_end toy_world;
              now := now toy_world |} in
  exists tr e,
    toy_main config w ["run.py"; "7"] = (tr, Raise e)
    /\ optimizer_steps tr = 0
    /\ filter is_write tr = [].
Proof.
  intros w. destruct (toy_main config w ["run.py"; "7"]) as [tr o] eqn:E.
  destruct (missing_column_fails_in_preparation toy_bpe ToyTorch toy_assembled toy_randperm
              toy_train_step toy_logits toy_float_repr config w ["run.py"; "7"] tr o E)
    as ((e & ->) & _ & Hsteps & Hwrites).
  - simpl. lia.
  - exists "test". eexists. split; [simpl; auto|]. split; [reflexivity|].
    right. reflexivity.
  - exists tr, e. split; [reflexivity|]. split; assumption.
Defined.

Lemma tokenized_records_are_framed_witness :
  exists tr ds',
    dataset_map toy_bpe config ["texto"; "nota"] (toy_table [toy_row "bc" 400 2]) = (tr, Done ds')
    /\ Forall2
         (fun r r' =>
            exists text ids,
              get "texto" r = Some (VText text)
              /\ get "input_ids" r' = Some (VInts (bos_token_id :: ids ++ [eos_token_id]))
              /\ get "attention_mask" r' = Some (VInts (repeat 1%Z (length ids + 2)))
              /\ ids = firstn (512 - 2) (toy_bpe text)
              /\ (length (toy_bpe text) <= 512 - 2 -> ids = toy_bpe text))
         [toy_row "bc" 400 2] (rows ds').
Proof.
  do 2 eexists. split; [vm_compute; reflexivity|].
  apply (tokenized_records_are_framed toy_bpe config (toy_table [toy_row "bc" 400 2]) []).
  vm_compute. reflexivity.
Defined.





Lemma summary_keys_in_order_witness :
  exists tr g,
    toy_main config toy_world ["run.py"; "7"] = (tr, Done g)
    /\ length (final_results g) = 14
    /\ map fst (final_results g)
       = [KStr "batch_size"; KStr "model"; KStr "epochs"; KStr "metrics"; KStr "conjunto";
          KStr "obs"; KStr "padding_side"; KStr "train_size"; KStr "test_size";
          KStr "eval_size"; KStr "n_labels"; KStr "validation_metric"; KStr "date";
          KStr "processing_time"].
Proof.
  destruct (toy_main config toy_world ["run.py"; "7"]) as [tr [g|st|e]] eqn:E;
    try (vm_compute in E; discriminate E).
  pose proof (summary_keys_in_order toy_bpe ToyTorch toy_assembled toy_randperm
                toy_train_step toy_logits toy_float_repr config toy_world ["run.py"; "7"]
                tr g E) as Hkeys.
  exists tr, g. split; [reflexivity|]. split; [|exact Hkeys].
  rewrite <- (length_map fst), Hkeys. reflexivity.
Defined.
